(** * pdf-to-json-app: the quiz-text classifier and the question builder

    A shallow embedding of the two pieces of logic of
    [src/components/EditorScreen.tsx]:

    - [parseQuizText], which turns the text of one PDF page into a list of
      tagged display lines (two variants exist in the repository: the
      newline/heuristic one of the current [EditorScreen.tsx] and the older
      pattern-anchored one kept beside it);
    - the [JSONBuilder] handlers ([handleQuestionDrop], [handleOptionDrop],
      [handleAnswerChange], [addQuestion], [exportJSON]) acting on the React
      state [currentQuestion] / [questionsArray].

    JavaScript strings are sequences of UTF-16 code units, and the regular
    expressions of the source are kept as regular expressions: a small
    backtracking matcher gives them the ECMAScript meaning. *)

From Stdlib Require Import List Bool Arith NArith Lia String Ascii DecimalString.
Import ListNotations.

Set Implicit Arguments.

(* ================================================================== *)
(** * JavaScript strings *)
(* ================================================================== *)

Module JS.

(** A UTF-16 code unit and a JavaScript string. [length] of the list is the
    [.length] of the string. *)
Definition cu := N.
Definition jsstring := list cu.

Definition cu_eqb (a b : cu) : bool := N.eqb a b.

Fixpoint jsstring_eqb (a b : jsstring) : bool :=
  match a, b with
  | [], [] => true
  | x :: a', y :: b' => cu_eqb x y && jsstring_eqb a' b'
  | _, _ => false
  end.

(** ** String literals

    The source file is UTF-8; a literal of it denotes the UTF-16 string of
    its code points.  [utf16] does that conversion for the literals used
    below, so that they can be written as they are in the source. *)

Definition utf16_of_code_point (c : N) : jsstring :=
  if (c <? 65536)%N then [c]
  else
    let c' := (c - 65536)%N in
    [(55296 + N.shiftr c' 10)%N; (56320 + N.land c' 1023)%N].

Definition cont (a : ascii) : N := N.land (N_of_ascii a) 63.

Fixpoint utf16 (s : string) : jsstring :=
  match s with
  | EmptyString => []
  | String a s1 =>
    let n := N_of_ascii a in
    if (n <? 128)%N then n :: utf16 s1
    else if (n <? 224)%N then
      match s1 with
      | String b s2 =>
        utf16_of_code_point (N.shiftl (N.land n 31) 6 + cont b) ++ utf16 s2
      | _ => [65533%N]
      end
    else if (n <? 240)%N then
      match s1 with
      | String b (String c s3) =>
        utf16_of_code_point
          (N.shiftl (N.land n 15) 12 + N.shiftl (cont b) 6 + cont c) ++ utf16 s3
      | _ => [65533%N]
      end
    else
      match s1 with
      | String b (String c (String d s4)) =>
        utf16_of_code_point
          (N.shiftl (N.land n 7) 18 + N.shiftl (cont b) 12
           + N.shiftl (cont c) 6 + cont d) ++ utf16 s4
      | _ => [65533%N]
      end
  end.

(** ** Truthiness, white space and [trim] *)

(** A string used as a condition is truthy iff it is not the empty string. *)
Definition truthy (s : jsstring) : bool :=
  match s with [] => false | _ => true end.

(** ECMAScript [WhiteSpace] and [LineTerminator] code units: what
    [String.prototype.trim] strips and what [\s] matches. *)
Definition is_ws (c : cu) : bool :=
  ((9 <=? c) && (c <=? 13) || (c =? 32) || (c =? 160) || (c =? 5760)
   || (8192 <=? c) && (c <=? 8202) || (c =? 8232) || (c =? 8233)
   || (c =? 8239) || (c =? 8287) || (c =? 12288) || (c =? 65279))%N.

Fixpoint trimStart (s : jsstring) : jsstring :=
  match s with
  | c :: s' => if is_ws c then trimStart s' else s
  | [] => []
  end.

Definition trimEnd (s : jsstring) : jsstring := rev (trimStart (rev s)).

Definition trim (s : jsstring) : jsstring := trimEnd (trimStart s).

(** [s.indexOf(t)]-style search, used by [replace] with a string pattern. *)
Fixpoint starts_with (t s : jsstring) : bool :=
  match t, s with
  | [], _ => true
  | x :: t', y :: s' => cu_eqb x y && starts_with t' s'
  | _ :: _, [] => false
  end.

(** [s.replace(t, '')] with a string pattern [t]: the first occurrence of
    [t] is removed; [s] is returned as it is when [t] does not occur. *)
Fixpoint remove_first (t s : jsstring) : jsstring :=
  if starts_with t s then skipn (List.length t) s
  else match s with
       | [] => []
       | c :: s' => c :: remove_first t s'
       end.

End JS.
Import JS.


(* ================================================================== *)
(** * Regular expressions *)
(* ================================================================== *)

Module RegExp.

(** The members of a character class. *)
Inductive atom : Type :=
| AChar (c : cu)            (* a literal character *)
| ARange (lo hi : cu)       (* lo-hi *)
| ADigit                    (* \d *)
| ASpace.                   (* \s *)

(** The fragment of the ECMAScript pattern language the source uses. *)
Inductive regex : Type :=
| Eps                                   (* the empty pattern *)
| Cls (l : list atom)                   (* [...], a literal, \d, \s *)
| Dot                                   (* . *)
| Lit (s : jsstring)                    (* a run of literal characters *)
| Seq (r1 r2 : regex)                   (* r1r2 *)
| Alt (r1 r2 : regex)                   (* r1|r2 *)
| Star (greedy : bool) (r : regex)      (* r* and r*? *)
| Group (i : nat) (r : regex)           (* the i-th capturing group (r) *)
| Look (r : regex)                      (* (?=r) *)
| Bol                                   (* ^ *)
| Eol.                                  (* $ *)

(** [r+] is [rr*]; [r?] tries [r] and, failing that, matches nothing. *)
Definition Plus (greedy : bool) (r : regex) : regex := Seq r (Star greedy r).
Definition Opt (r : regex) : regex := Alt r Eps.
Definition Chr (s : string) : regex := Lit (utf16 s).
Definition digit : regex := Cls [ADigit].
Definition space : regex := Cls [ASpace].
Definition OneOf (s : string) : list atom := map AChar (utf16 s).

(** [Canonicalize] of the [i] flag (without [u]): the upper-case mapping,
    which never sends a non-ASCII code unit to an ASCII one.  Every pattern
    of the source carrying the flag is made of ASCII letters, [:] and [\s],
    so only the ASCII part of the mapping can make two code units agree. *)
Definition canon (ci : bool) (c : cu) : cu :=
  if ci && (97 <=? c)%N && (c <=? 122)%N then (c - 32)%N else c.

Definition is_line_terminator (c : cu) : bool :=
  ((c =? 10) || (c =? 13) || (c =? 8232) || (c =? 8233))%N.

Definition atom_match (ci : bool) (a : atom) (c : cu) : bool :=
  match a with
  | AChar x => cu_eqb (canon ci x) (canon ci c)
  | ARange lo hi =>
      ((lo <=? c) && (c <=? hi))%N
      || ci && (((lo <=? canon ci c) && (canon ci c <=? hi))%N
                || ((lo <=? c + 32) && (c + 32 <=? hi) && (65 <=? c) && (c <=? 90))%N)
  | ADigit => ((48 <=? c) && (c <=? 57))%N
  | ASpace => is_ws c
  end.

Fixpoint lit_match (ci : bool) (t s : jsstring) : option jsstring :=
  match t, s with
  | [], _ => Some s
  | x :: t', y :: s' =>
      if cu_eqb (canon ci x) (canon ci y) then lit_match ci t' s' else None
  | _ :: _, [] => None
  end.

(** The state of a match: the input still to be read and the captures
    made so far (most recent first).  The index reached is the length of
    the whole input minus that of [rest]. *)
Record mstate : Type := MState {
  rest : jsstring;
  caps : list (nat * jsstring)
}.

Definition goto (x : mstate) (s : jsstring) : mstate :=
  {| rest := s; caps := caps x |}.

Definition set_cap (i : nat) (v : jsstring) (x : mstate) : mstate :=
  {| rest := rest x; caps := (i, v) :: caps x |}.

Fixpoint lookup_cap (i : nat) (l : list (nat * jsstring)) : option jsstring :=
  match l with
  | [] => None
  | (j, v) :: l' => if Nat.eqb i j then Some v else lookup_cap i l'
  end.

Definition or_else {A} (a b : option A) : option A :=
  match a with Some _ => a | None => b end.

Definition matcher : Type := mstate -> (mstate -> option mstate) -> option mstate.

(** [RepeatMatcher] for [r*] and [r*?]: an iteration that consumed nothing
    is refused, so there is at most one iteration per code unit left and
    a [fuel] above that number is never used up. *)
Fixpoint repeat_matcher (body : matcher) (greedy : bool)
                        (k : mstate -> option mstate)
                        (fuel : nat) (x : mstate) {struct fuel} : option mstate :=
  match fuel with
  | O => k x
  | S fuel' =>
      let again :=
        body x (fun y => if List.length (rest y) <? List.length (rest x)
                         then repeat_matcher body greedy k fuel' y
                         else None) in
      if greedy then or_else again (k x) else or_else (k x) again
  end.

(** The backtracking matcher, in continuation-passing style as in the
    ECMAScript specification: [m ci n r x k] matches [r] at [x], in an
    input of [n] code units, and hands every end state to [k] until [k]
    accepts one.  No pattern of the source has a group under a repetition,
    so the clearing of captures at each iteration is left out. *)
Fixpoint m (ci : bool) (n : nat) (r : regex) {struct r} : matcher :=
  fun x k =>
  match r with
  | Eps => k x
  | Cls l =>
      match rest x with
      | c :: s => if existsb (fun a => atom_match ci a c) l
                  then k (goto x s) else None
      | [] => None
      end
  | Dot =>
      match rest x with
      | c :: s => if is_line_terminator c then None else k (goto x s)
      | [] => None
      end
  | Lit t =>
      match lit_match ci t (rest x) with
      | Some s => k (goto x s)
      | None => None
      end
  | Seq r1 r2 => m ci n r1 x (fun y => m ci n r2 y k)
  | Alt r1 r2 => or_else (m ci n r1 x k) (m ci n r2 x k)
  | Star greedy r1 =>
      repeat_matcher (m ci n r1) greedy k (S (List.length (rest x))) x
  | Group i r1 =>
      m ci n r1 x
        (fun y => k (set_cap i (firstn (List.length (rest x) - List.length (rest y))
                                       (rest x)) y))
  | Look r1 =>
      match m ci n r1 x Some with
      | Some y => k {| rest := rest x; caps := caps y |}
      | None => None
      end
  | Bol => if Nat.eqb (List.length (rest x)) n then k x else None
  | Eol => match rest x with [] => k x | _ :: _ => None end
  end.

(** The end states of a pattern, as a relation: [ends ci n r x y] says
    that [r], started at [x], can stop at [y].  The matcher only ever
    hands such states to its continuation ([m_ends] below). *)
Inductive ends (ci : bool) (n : nat) : regex -> mstate -> mstate -> Prop :=
| E_Eps x : ends ci n Eps x x
| E_Cls l x c s :
    rest x = c :: s -> existsb (fun a => atom_match ci a c) l = true ->
    ends ci n (Cls l) x (goto x s)
| E_Dot x c s :
    rest x = c :: s -> is_line_terminator c = false ->
    ends ci n Dot x (goto x s)
| E_Lit t x s :
    lit_match ci t (rest x) = Some s -> ends ci n (Lit t) x (goto x s)
| E_Seq r1 r2 x y z :
    ends ci n r1 x y -> ends ci n r2 y z -> ends ci n (Seq r1 r2) x z
| E_Alt_l r1 r2 x y : ends ci n r1 x y -> ends ci n (Alt r1 r2) x y
| E_Alt_r r1 r2 x y : ends ci n r2 x y -> ends ci n (Alt r1 r2) x y
| E_Star_stop g r x : ends ci n (Star g r) x x
| E_Star_more g r x y z :
    ends ci n r x y -> List.length (rest y) < List.length (rest x) ->
    ends ci n (Star g r) y z -> ends ci n (Star g r) x z
| E_Group i r x y :
    ends ci n r x y ->
    ends ci n (Group i r) x
         (set_cap i (firstn (List.length (rest x) - List.length (rest y)) (rest x)) y)
| E_Look r x y :
    ends ci n r x y -> ends ci n (Look r) x {| rest := rest x; caps := caps y |}
| E_Bol x : List.length (rest x) = n -> ends ci n Bol x x
| E_Eol x : rest x = [] -> ends ci n Eol x x.

(** Patterns without a capturing group. *)
Fixpoint group_free (r : regex) : bool :=
  match r with
  | Eps | Cls _ | Dot | Lit _ | Bol | Eol => true
  | Seq r1 r2 | Alt r1 r2 => group_free r1 && group_free r2
  | Star _ r1 | Look r1 => group_free r1
  | Group _ _ => false
  end.

(** A compiled pattern with its [i] flag. *)
Record RegExp : Type := { ignoreCase : bool; pattern : regex }.

(** What [exec] returns: [index], [match[0]] and the groups. *)
Record match_result : Type := {
  index : nat;
  whole : jsstring;
  groups : list (nat * jsstring);
  after : jsstring                       (* the input past the match *)
}.

Definition group (i : nat) (r : match_result) : jsstring :=
  match lookup_cap i (groups r) with Some v => v | None => [] end.

(** Matching at index [i] only (the sticky match of [split]); [s] is the
    input from [i] on. *)
Definition match_at (re : RegExp) (i : nat) (s : jsstring) : option match_result :=
  match m (ignoreCase re) (i + List.length s) (pattern re)
          {| rest := s; caps := [] |} Some with
  | Some y => Some {| index := i;
                      whole := firstn (List.length s - List.length (rest y)) s;
                      groups := caps y; after := rest y |}
  | None => None
  end.

(** [exec] from index [i], where [s] is the input from [i] on: the first
    index at which the pattern matches. *)
Fixpoint exec_from (re : RegExp) (i : nat) (s : jsstring) : option match_result :=
  match match_at re i s with
  | Some r => Some r
  | None => match s with
            | [] => None
            | _ :: s' => exec_from re (S i) s'
            end
  end.

(** [re.test(s)] and [s.match(re)] for a pattern without the [g] flag. *)
Definition test (re : RegExp) (s : jsstring) : bool :=
  match exec_from re 0 s with Some _ => true | None => false end.

Definition exec (re : RegExp) (s : jsstring) : option match_result :=
  exec_from re 0 s.

(** [s.matchAll(re)] for a pattern with the [g] flag: successive [exec]s,
    each from the end of the previous match (one further after an empty
    match). *)
Fixpoint matchAll_from (re : RegExp) (fuel i : nat) (s : jsstring) : list match_result :=
  match fuel with
  | O => []
  | S fuel' =>
      match exec_from re i s with
      | None => []
      | Some r =>
          let e := index r + List.length (whole r) in
          r :: match whole r, after r with
               | [], [] => []
               | [], _ :: s' => matchAll_from re fuel' (S e) s'
               | _ :: _, s' => matchAll_from re fuel' e s'
               end
      end
  end.

Definition matchAll (re : RegExp) (s : jsstring) : list match_result :=
  matchAll_from re (S (List.length s)) 0 s.

(** [s.replace(re, by)] for a pattern with the [g] flag and a replacement
    without [$]: the text between the matches is kept, each match becomes
    [by]. *)
Fixpoint replace_from (by_ : jsstring) (next : nat) (s : jsstring)
                      (l : list match_result) : jsstring :=
  match l with
  | [] => skipn next s
  | r :: l' =>
      firstn (index r - next) (skipn next s) ++ by_
      ++ replace_from by_ (index r + List.length (whole r)) s l'
  end.

Definition replaceAll (re : RegExp) (by_ : jsstring) (s : jsstring) : jsstring :=
  replace_from by_ 0 s (matchAll re s).

(** [s.split(re)] for a pattern without groups.  [cur] holds, reversed, the
    code units between the end [p] of the last separator and the index [q]
    under inspection; [s] is the input from [q] on.  A separator that ends
    at [p] (an empty match right after the previous one) is not one. *)
Fixpoint split_from (re : RegExp) (fuel : nat) (cur : jsstring) (q : nat)
                    (s : jsstring) : list jsstring :=
  match fuel with
  | O => [rev cur ++ s]
  | S fuel' =>
      match s with
      | [] => [rev cur]
      | c :: s' =>
          match match_at re q s with
          | None => split_from re fuel' (c :: cur) (S q) s'
          | Some r =>
              let e := q + List.length (whole r) in
              if Nat.eqb e (q - List.length cur)
              then split_from re fuel' (c :: cur) (S q) s'
              else rev cur :: split_from re fuel' [] e (after r)
          end
      end
  end.

Definition split (re : RegExp) (s : jsstring) : list jsstring :=
  match s with
  | [] => match match_at re 0 [] with Some _ => [] | None => [[]] end
  | _ => split_from re (2 * List.length s + 1) [] 0 s
  end.

End RegExp.
Import RegExp.

(* ================================================================== *)
(** * The classifier of [EditorScreen.tsx] *)
(* ================================================================== *)

(** The roles a line can be tagged with, and the emoji that tags it. *)
Inductive role : Type := Question | Option_ | Answer | Explanation | Plain.

Definition seq (l : list regex) : regex := fold_right Seq Eps l.
Definition alts (l : list regex) : regex :=
  match l with
  | [] => Eps
  | r :: l' => fold_left Alt l' r
  end.
Definition ch (s : string) : cu := hd 0%N (utf16 s).

Module Classifier.

(** [/\n+/] *)
Definition re_newlines : RegExp :=
  {| ignoreCase := false; pattern := Plus true (Cls [AChar 10%N]) |}.

(** [/\s+/g] *)
Definition re_spaces : RegExp :=
  {| ignoreCase := false; pattern := Plus true space |}.

(** [/^\d+[\.\)]\s+/] *)
Definition re_question : RegExp :=
  {| ignoreCase := false;
     pattern := seq [Bol; Plus true digit; Cls (OneOf ".)"); Plus true space] |}.

(** [/^[•\-\*]?\s*[\(\[]?[a-dA-D][\)\.\]]\s+/] *)
Definition re_option : RegExp :=
  {| ignoreCase := false;
     pattern := seq [Bol; Opt (Cls (OneOf "•-*")); Star true space;
                     Opt (Cls (OneOf "(["));
                     Cls [ARange (ch "a") (ch "d"); ARange (ch "A") (ch "D")];
                     Cls (OneOf ").]"); Plus true space] |}.

(** [/^(Answer|Ans|Correct|Solution)s?[:]\s*/i] *)
Definition re_answer : RegExp :=
  {| ignoreCase := true;
     pattern := seq [Bol;
                     Group 1 (alts [Chr "Answer"; Chr "Ans"; Chr "Correct";
                                    Chr "Solution"]);
                     Opt (Chr "s"); Cls (OneOf ":"); Star true space] |}.

(** [/^(Explanation|Because|Reason|Solution)s?[:]\s*/i] *)
Definition re_explanation : RegExp :=
  {| ignoreCase := true;
     pattern := seq [Bol;
                     Group 1 (alts [Chr "Explanation"; Chr "Because";
                                    Chr "Reason"; Chr "Solution"]);
                     Opt (Chr "s"); Cls (OneOf ":"); Star true space] |}.

(** [/^[A-Z\s]+$/] *)
Definition re_header : RegExp :=
  {| ignoreCase := false;
     pattern := seq [Bol; Plus true (Cls [ARange (ch "A") (ch "Z"); ASpace]);
                     Eol] |}.

(** The filter of line 70: [chunk => chunk.trim().length > 5]. *)
Definition long_enough (chunk : jsstring) : bool :=
  5 <? List.length (trim chunk).

(** [chunk.trim().replace(/\s+/g, ' ')] *)
Definition normalize (chunk : jsstring) : jsstring :=
  replaceAll re_spaces (utf16 " ") (trim chunk).

(** The template literals of the [push] calls. *)
Definition tag (r : role) : jsstring :=
  match r with
  | Question => utf16 "❓ "
  | Option_ => utf16 "🔘 "
  | Answer => utf16 "✅ "
  | Explanation => utf16 "💡 "
  | Plain => utf16 "📝 "
  end.

Definition template (r : role) (trimmed : jsstring) : jsstring := tag r ++ trimmed.

(** The [if … else if …] chain of the loop body: the role given to a
    normalised chunk, if any. *)
Definition role_of (trimmed : jsstring) : option role :=
  if test re_question trimmed then Some Question
  else if test re_option trimmed then Some Option_
  else if test re_answer trimmed then Some Answer
  else if test re_explanation trimmed then Some Explanation
  else if (15 <? List.length trimmed) && negb (test re_header trimmed)
       then Some Plain
  else None.

(** One turn of [for (const chunk of chunks)]: [lines] after the turn. *)
Definition loop_body (lines : list jsstring) (chunk : jsstring) : list jsstring :=
  let trimmed := normalize chunk in
  match role_of trimmed with
  | Some r => lines ++ [template r trimmed]
  | None => lines
  end.

Definition chunks_of (text : jsstring) : list jsstring :=
  filter long_enough (split re_newlines text).

(** The lines [parseQuizText] returns. *)
Definition parsed_lines (text : jsstring) : list jsstring :=
  fold_left loop_body (chunks_of text) [].

(** The browser console, the only thing outside its argument the function
    touches: it appends one entry to it. *)
Definition console := list jsstring.

Definition console_log (entry : jsstring) (w : console) : console := w ++ [entry].

(** [parseQuizText(text)], run with the console in state [w].  The
    function has no exceptional outcome: [split], [filter], [trim],
    [replace], [test], [push] and [console.log] do not throw on strings. *)
Definition parseQuizText (text : jsstring) (w : console) : list jsstring * console :=
  let lines := parsed_lines text in
  (lines,
   console_log (utf16 "Parsed "
                ++ utf16 (NilEmpty.string_of_uint (Nat.to_uint (List.length lines)))
                ++ utf16 " lines from PDF text") w).

(** Reading a line back as a fragment: its role from the tag, its text
    after the tag. *)
Definition fragment : Type := role * jsstring.

Definition untag (r : role) (line : jsstring) : option fragment :=
  if starts_with (tag r) line then Some (r, skipn (List.length (tag r)) line)
  else None.

Definition fragment_of (line : jsstring) : option fragment :=
  or_else (untag Question line)
  (or_else (untag Option_ line)
  (or_else (untag Answer line)
  (or_else (untag Explanation line) (untag Plain line)))).

(** The fragments of a text, in the order of the lines. *)
Fixpoint fragments_of_lines (lines : list jsstring) : list fragment :=
  match lines with
  | [] => []
  | l :: lines' =>
      match fragment_of l with
      | Some f => f :: fragments_of_lines lines'
      | None => fragments_of_lines lines'
      end
  end.

Definition classify (text : jsstring) : list fragment :=
  fragments_of_lines (parsed_lines text).

End Classifier.

(* ================================================================== *)
(** * The earlier, pattern-anchored classifier *)
(* ================================================================== *)

(** The version of [parseQuizText] kept in the repository beside the
    current one (the pdf.js-based editor screen): it cuts the page text
    before every "number, dot, space" and pulls the question, the options
    and the answer out of each block with anchored patterns. *)
Module Anchored.

(** [\s*•\s*\([a-d]\)], the look-ahead shared by two patterns. *)
Definition option_ahead : regex :=
  seq [Star true space; Chr "•"; Star true space; Chr "(";
       Cls [ARange (ch "a") (ch "d")]; Chr ")"].

(** [/(?=\d+\.\s)/] *)
Definition re_blocks : RegExp :=
  {| ignoreCase := false;
     pattern := Look (seq [Plus true digit; Chr "."; space]) |}.

(** [/^(\d+\.)\s+(.*?)(?=\s*•\s*\([a-d]\)|$)/] *)
Definition re_question : RegExp :=
  {| ignoreCase := false;
     pattern := seq [Bol; Group 1 (seq [Plus true digit; Chr "."]);
                     Plus true space; Group 2 (Star false Dot);
                     Look (alts [option_ahead; Eol])] |}.

(** [/•\s*\(([a-d])\)\s+(.*?)(?=\s*•\s*\([a-d]\)|Answer:|$)/g] *)
Definition re_option : RegExp :=
  {| ignoreCase := false;
     pattern := seq [Chr "•"; Star true space; Chr "(";
                     Group 1 (Cls [ARange (ch "a") (ch "d")]); Chr ")";
                     Plus true space; Group 2 (Star false Dot);
                     Look (alts [option_ahead; Chr "Answer:"; Eol])] |}.

(** [/Answer:\s*(.+?)(?=\d+\.|$)/] *)
Definition re_answer : RegExp :=
  {| ignoreCase := false;
     pattern := seq [Chr "Answer:"; Star true space; Group 1 (Plus false Dot);
                     Look (alts [seq [Plus true digit; Chr "."]; Eol])] |}.

(** The template literals of the three [push] calls. *)
Definition question_line (questionText : jsstring) : jsstring :=
  utf16 "❓ " ++ questionText.

Definition option_line (optionLetter optionText : jsstring) : jsstring :=
  utf16 "🔘 (" ++ optionLetter ++ utf16 ") " ++ optionText.

Definition answer_line (answerText : jsstring) : jsstring :=
  utf16 "✅ Answer: " ++ answerText.

(** [if (t) lines.push(l)] *)
Definition push_if (t : jsstring) (l : jsstring) (lines : list jsstring) : list jsstring :=
  if truthy t then lines ++ [l] else lines.

(** One turn of [for (const match of optionMatches)], on the pair of
    [lines] and [remainingText].  The matches were computed on the value
    [remainingText] had when [matchAll] was called. *)
Definition option_body (st : list jsstring * jsstring) (match_ : match_result)
  : list jsstring * jsstring :=
  let (lines, remainingText) := st in
  let optionLetter := group 1 match_ in
  let optionText := trim (group 2 match_) in
  (push_if optionText (option_line optionLetter optionText) lines,
   trim (remove_first (whole match_) remainingText)).

(** One turn of [for (const block of questionBlocks)]. *)
Definition block_body (lines : list jsstring) (block : jsstring) : list jsstring :=
  let remainingText := trim block in
  let st :=
    match exec re_question remainingText with
    | Some questionMatch =>
        let questionText := trim (group 2 questionMatch) in
        (push_if questionText (question_line questionText) lines,
         trim (remove_first (whole questionMatch) remainingText))
    | None => (lines, remainingText)
    end in
  let optionMatches := matchAll re_option (snd st) in
  let (lines, remainingText) := fold_left option_body optionMatches st in
  match exec re_answer remainingText with
  | Some answerMatch =>
      let answerText := trim (group 1 answerMatch) in
      push_if answerText (answer_line answerText) lines
  | None => lines
  end.

Definition questionBlocks (text : jsstring) : list jsstring :=
  filter (fun q => 0 <? List.length (trim q)) (split re_blocks text).

Definition parseQuizText (text : jsstring) : list jsstring :=
  fold_left block_body (questionBlocks text) [].

Definition classify (text : jsstring) : list Classifier.fragment :=
  Classifier.fragments_of_lines (parseQuizText text).

(** The three shapes of the lines this classifier pushes: an option line
    carries its letter, one of a to d, between parentheses and a text that
    is not empty. *)
Inductive pushed_line : jsstring -> Prop :=
| PL_question t : pushed_line (question_line t)
| PL_option c t :
    (97 <= c)%N -> (c <= 100)%N -> t <> [] -> pushed_line (option_line [c] t)
| PL_answer t : pushed_line (answer_line t).

End Anchored.

(* ================================================================== *)
(** * The question builder ([JSONBuilder]) *)
(* ================================================================== *)

Module Builder.

(** [interface QuestionData] *)
Record QuestionData : Type := {
  questionNumber : nat;
  questionText : jsstring;
  question_images : list jsstring;
  option_with_images_ : list jsstring;
  correct_answer : jsstring
}.

(** The two pieces of React state of [EditorScreen], handed to
    [JSONBuilder] as props. *)
Record state : Type := {
  currentQuestion : QuestionData;
  questionsArray : list QuestionData
}.

(** The initial values given to [useState]. *)
Definition initial : state :=
  {| currentQuestion :=
       {| questionNumber := 1;
          questionText := utf16 "";
          question_images := [];
          option_with_images_ := [utf16 ""; utf16 ""; utf16 ""; utf16 ""];
          correct_answer := utf16 "A" |};
     questionsArray := [] |}.

(** How a handler ends: it returns, or it throws. *)
Inductive completion (A : Type) : Type :=
| Normal (v : A)
| Throw (e : jsstring).
Arguments Normal {A} v.
Arguments Throw {A} e.

(** An event handler of the component.  It reads the state it was rendered
    with (the values its closure holds) and queues updates with the two
    setters; the updates of one event are applied together. *)
Definition handler (A : Type) : Type :=
  state -> state -> completion A * state.

Definition ret {A} (v : A) : handler A := fun _ st => (Normal v, st).

Definition bind {A B} (h : handler A) (f : A -> handler B) : handler B :=
  fun rendered st =>
    match h rendered st with
    | (Normal v, st') => f v rendered st'
    | (Throw e, st') => (Throw e, st')
    end.

Definition setCurrentQuestion (q : QuestionData) : handler unit :=
  fun _ st => (Normal tt, {| currentQuestion := q; questionsArray := questionsArray st |}).

Definition setQuestionsArray (arr : list QuestionData) : handler unit :=
  fun _ st => (Normal tt, {| currentQuestion := currentQuestion st; questionsArray := arr |}).

(** The handler's body gets the rendered values under their own names. *)
Definition with_props {A} (body : QuestionData -> list QuestionData -> handler A)
  : handler A :=
  fun rendered => body (currentQuestion rendered) (questionsArray rendered) rendered.

Notation "h1 ;; h2" := (bind h1 (fun _ => h2))
  (at level 61, right associativity).

(** Firing a handler on the state on screen. *)
Definition fire {A} (h : handler A) (s : state) : completion A * state := h s s.

(** [newOptions[optionIndex] = text] on the copy [newOptions].  The four
    drop zones pass the indices 0 to 3 of a four-element array; an index
    past the end would leave holes in a JavaScript array, which
    [string[]] does not describe, and is given no effect here. *)
Fixpoint assign (arr : list jsstring) (i : nat) (v : jsstring) : list jsstring :=
  match arr, i with
  | [], _ => []
  | _ :: arr', O => v :: arr'
  | x :: arr', S i' => x :: assign arr' i' v
  end.

(** [{ ...currentQuestion, questionText: text }] and its siblings. *)
Definition with_questionText (q : QuestionData) (text : jsstring) : QuestionData :=
  {| questionNumber := questionNumber q; questionText := text;
     question_images := question_images q;
     option_with_images_ := option_with_images_ q;
     correct_answer := correct_answer q |}.

Definition with_options (q : QuestionData) (newOptions : list jsstring) : QuestionData :=
  {| questionNumber := questionNumber q; questionText := questionText q;
     question_images := question_images q;
     option_with_images_ := newOptions;
     correct_answer := correct_answer q |}.

Definition with_correct_answer (q : QuestionData) (answer : jsstring) : QuestionData :=
  {| questionNumber := questionNumber q; questionText := questionText q;
     question_images := question_images q;
     option_with_images_ := option_with_images_ q;
     correct_answer := answer |}.

Definition handleQuestionDrop (text : jsstring) : handler unit :=
  with_props (fun currentQuestion _ =>
    setCurrentQuestion (with_questionText currentQuestion text)).

Definition handleOptionDrop (text : jsstring) (optionIndex : nat) : handler unit :=
  with_props (fun currentQuestion _ =>
    let newOptions := assign (option_with_images_ currentQuestion) optionIndex text in
    setCurrentQuestion (with_options currentQuestion newOptions)).

Definition handleAnswerChange (answer : jsstring) : handler unit :=
  with_props (fun currentQuestion _ =>
    setCurrentQuestion (with_correct_answer currentQuestion answer)).

(** The condition written out three times in the component (in
    [addQuestion], in [exportJSON] and, negated, as the [disabled] of the
    "Add Question" button):
    [currentQuestion.questionText &&
     currentQuestion.option_with_images_.every(opt => opt.trim())]. *)
Definition canCommit (q : QuestionData) : bool :=
  truthy (questionText q)
  && forallb (fun opt => truthy (trim opt)) (option_with_images_ q).

Definition addQuestion : handler unit :=
  with_props (fun currentQuestion questionsArray =>
    if canCommit currentQuestion then
      setQuestionsArray (questionsArray ++ [currentQuestion]) ;;
      setCurrentQuestion
        {| questionNumber := List.length questionsArray + 2;
           questionText := utf16 "";
           question_images := [];
           option_with_images_ := [utf16 ""; utf16 ""; utf16 ""; utf16 ""];
           correct_answer := utf16 "A" |}
    else ret tt).

(** What [exportJSON] hands to the browser: the name of the download and
    the array it serialises with [JSON.stringify(finalArray, null, 2)]. *)
Record download : Type := {
  filename : jsstring;
  finalArray : list QuestionData
}.

Definition exportJSON : handler download :=
  with_props (fun currentQuestion questionsArray =>
    let finalArray := questionsArray in
    let finalArray :=
      if canCommit currentQuestion then finalArray ++ [currentQuestion]
      else finalArray in
    ret {| filename := utf16 "questions.json"; finalArray := finalArray |}).

(** The drop zones of the options: [['A','B','C','D'].map((letter, index) => …)]. *)
Inductive letter : Type := A | B | C | D.

Definition letters : list letter := [A; B; C; D].

Definition index_of (l : letter) : nat :=
  match l with A => 0 | B => 1 | C => 2 | D => 3 end.

Definition value_of (l : letter) : jsstring :=
  match l with
  | A => utf16 "A" | B => utf16 "B" | C => utf16 "C" | D => utf16 "D"
  end.

(** What the user can do with the builder: drop a text on the question
    zone or on one of the four option zones, pick an answer in the
    [<select>], press "Add Question", press "Export JSON". *)
Inductive action : Type :=
| DropQuestion (text : jsstring)
| DropOption (l : letter) (text : jsstring)
| SelectAnswer (l : letter)
| ClickAdd
| ClickExport.

Definition step (s : state) (a : action) : state :=
  match a with
  | DropQuestion text => snd (fire (handleQuestionDrop text) s)
  | DropOption l text => snd (fire (handleOptionDrop text (index_of l)) s)
  | SelectAnswer l => snd (fire (handleAnswerChange (value_of l)) s)
  | ClickAdd => snd (fire addQuestion s)
  | ClickExport => snd (fire exportJSON s)
  end.

Definition run (s : state) (l : list action) : state := fold_left step l s.

(** The states the builder can be in. *)
Definition reachable (s : state) : Prop := exists l, s = run initial l.

(** The drafts committed along a run from [s], in the order of the clicks
    on "Add Question" that committed them. *)
Fixpoint committed_by (s : state) (l : list action) : list QuestionData :=
  match l with
  | [] => []
  | a :: l' =>
      match a with
      | ClickAdd =>
          if canCommit (currentQuestion s) then [currentQuestion s] else []
      | _ => []
      end ++ committed_by (step s a) l'
  end.

(** The shape every state of the builder has: four option entries in the
    draft and in every committed question. *)
Definition four_options (q : QuestionData) : Prop :=
  List.length (option_with_images_ q) = 4.

Definition well_formed (s : state) : Prop :=
  four_options (currentQuestion s) /\ Forall four_options (questionsArray s).

End Builder.

(* ================================================================== *)
(** * Reading the loop of the classifier chunk by chunk *)
(* ================================================================== *)

(** Plain list functions the patterns and the loop of the classifier are
    shown to compute; nothing below is part of the program. *)
Module Chunks.
Import Classifier.

Definition is_newline (c : cu) : bool := (c =? 10)%N.

Fixpoint skip_newlines (s : jsstring) : jsstring :=
  match s with
  | c :: s' => if is_newline c then skip_newlines s' else s
  | [] => []
  end.

(** Cutting a text at every newline; [cur] is the piece being read,
    reversed. *)
Fixpoint split_lines (cur : jsstring) (s : jsstring) : list jsstring :=
  match s with
  | [] => [rev cur]
  | c :: s' => if is_newline c then rev cur :: split_lines [] s'
               else split_lines (c :: cur) s'
  end.

Definition newline_free (chunk : jsstring) : bool :=
  forallb (fun c => negb (is_newline c)) chunk.

(** What one chunk adds to [lines]. *)
Definition emitted (chunk : jsstring) : list jsstring :=
  match role_of (normalize chunk) with
  | Some r => [template r (normalize chunk)]
  | None => []
  end.

(** The same as a fragment. *)
Definition emitted_fragment (chunk : jsstring) : list fragment :=
  match role_of (normalize chunk) with
  | Some r => [(r, normalize chunk)]
  | None => []
  end.

End Chunks.

(* ================================================================== *)
(** * Dragging a line onto the builder *)
(* ================================================================== *)

Module DragDrop.
Import Builder.

(** The item of [DraggableText]: [{ text, index, id }]; the id, made of
    the index and the time of the drag, is read nowhere and left out. *)
Record item : Type := { text : jsstring; index : nat }.

(** [textLines.map((line, index) => <DraggableText text={line} index={index} />)]:
    the items on offer, one for each line. *)
Definition draggables (textLines : list jsstring) : list item :=
  map (fun p => {| text := snd p; index := fst p |})
      (combine (List.seq 0 (List.length textLines)) textLines).

(** The zones of the builder: [<DropZone onDrop={handleQuestionDrop}>] and
    the four [<DropZone onDrop={(text) => handleOptionDrop(text, index)}>]. *)
Inductive zone : Type := QuestionZone | OptionZone (l : letter).

(** [drop: (item) => { onDrop(item.text); ... }]: what dropping an item on
    a zone asks of the builder. *)
Definition drop (z : zone) (it : item) : action :=
  match z with
  | QuestionZone => DropQuestion (text it)
  | OptionZone l => DropOption l (text it)
  end.

(** Dragging line [i] of the list onto a zone; where the list has no line
    there is nothing to drag. *)
Definition drag (textLines : list jsstring) (i : nat) (z : zone) : list action :=
  match nth_error (draggables textLines) i with
  | Some it => [drop z it]
  | None => []
  end.

End DragDrop.

(* ================================================================== *)
(** * Scenarios *)
(* ================================================================== *)

Module Scenario.
Import Builder.

(** The page text of the worked example. *)
Definition quiz_text : jsstring :=
  utf16 "1. What is 2+2? • (a) 3 • (b) 4 • (c) 5 • (d) 6 Answer: b".

(** The six fragments the worked example is said to give. *)
Definition quiz_fragments_claimed : list Classifier.fragment :=
  [(Question, utf16 "What is 2+2?");
   (Option_, utf16 "3"); (Option_, utf16 "4");
   (Option_, utf16 "5"); (Option_, utf16 "6");
   (Answer, utf16 "b")].

(** The six lines the pattern-anchored classifier gives for it, the one
    line the current classifier gives, and the record committed from it. *)
Definition quiz_lines_anchored : list jsstring :=
  [utf16 "❓ What is 2+2?";
   utf16 "🔘 (a) 3"; utf16 "🔘 (b) 4"; utf16 "🔘 (c) 5"; utf16 "🔘 (d) 6";
   utf16 "✅ Answer: b"].

Definition quiz_lines_current : list jsstring :=
  [utf16 "❓ 1. What is 2+2? • (a) 3 • (b) 4 • (c) 5 • (d) 6 Answer: b"].

Definition quiz_record : QuestionData :=
  {| questionNumber := 1;
     questionText := utf16 "What is 2+2?";
     question_images := [];
     option_with_images_ := [utf16 "3"; utf16 "4"; utf16 "5"; utf16 "6"];
     correct_answer := utf16 "B" |}.

(** A page with one option line, and two chunks too short to be kept. *)
Definition option_page : jsstring := utf16 "• (a) three".
Definition short_question : jsstring := utf16 "1. Hi".
Definition short_answer : jsstring := utf16 "Ans:b".

(** Filling the builder from the worked example and picking answer B. *)
Definition fill_actions : list action :=
  [DropQuestion (utf16 "What is 2+2?");
   DropOption A (utf16 "3"); DropOption B (utf16 "4");
   DropOption C (utf16 "5"); DropOption D (utf16 "6");
   SelectAnswer B].

Definition filled : state := run initial fill_actions.

(** The same with a question text made of one space. *)
Definition blank_stem_actions : list action :=
  [DropQuestion (utf16 " ");
   DropOption A (utf16 "3"); DropOption B (utf16 "4");
   DropOption C (utf16 "5"); DropOption D (utf16 "6")].

Definition blank_stem : state := run initial blank_stem_actions.

(** A question text and three options out of four. *)
Definition three_options : state :=
  run initial [DropQuestion (utf16 "What is 2+2?");
               DropOption A (utf16 "3"); DropOption B (utf16 "4");
               DropOption C (utf16 "5")].

(** The worked example carried out on the lines of a document: the first
    line is dragged onto the question zone, the next four onto the zones
    of options A to D, and answer B is picked. *)
Definition drag_actions (textLines : list jsstring) : list action :=
  DragDrop.drag textLines 0 DragDrop.QuestionZone ++
  DragDrop.drag textLines 1 (DragDrop.OptionZone A) ++
  DragDrop.drag textLines 2 (DragDrop.OptionZone B) ++
  DragDrop.drag textLines 3 (DragDrop.OptionZone C) ++
  DragDrop.drag textLines 4 (DragDrop.OptionZone D) ++
  [SelectAnswer B].

(** The builder after that, on the lines the pattern-anchored classifier
    gives for the worked example, and the record committed from it. *)
Definition dragged : state :=
  run initial (drag_actions (Anchored.parseQuizText quiz_text)).

Definition quiz_record_dragged : QuestionData :=
  {| questionNumber := 1;
     questionText := utf16 "❓ What is 2+2?";
     question_images := [];
     option_with_images_ :=
       [utf16 "🔘 (a) 3"; utf16 "🔘 (b) 4"; utf16 "🔘 (c) 5"; utf16 "🔘 (d) 6"];
     correct_answer := utf16 "B" |}.

End Scenario.


(* ================================================================== *)
(** * Reading the normalisation of a chunk as a list function *)
(* ================================================================== *)

(** What [replace(/\s+/g, ' ')] is shown to compute; not part of the
    program. *)
Module Spaces.

(** Every run of white space becomes one space; [in_run] says that the
    code unit before was white space. *)
Fixpoint squeeze (in_run : bool) (s : jsstring) : jsstring :=
  match s with
  | [] => []
  | c :: s' =>
      if is_ws c
      then if in_run then squeeze true s' else 32%N :: squeeze true s'
      else c :: squeeze false s'
  end.

(** A text whose only white space is single spaces between other code
    units; [after_ws] says that the code unit before was white space (or
    that the text starts here). *)
Fixpoint tidy (after_ws : bool) (s : jsstring) : bool :=
  match s with
  | [] => negb after_ws
  | c :: s' =>
      if is_ws c then (c =? 32)%N && negb after_ws && tidy true s'
      else tidy false s'
  end.

(** The code units that are not white space, in order. *)
Definition visible (s : jsstring) : jsstring :=
  filter (fun c => negb (is_ws c)) s.

(** A text that ends with a code unit that is not white space. *)
Fixpoint ends_visible (s : jsstring) : bool :=
  match s with
  | [] => false
  | [c] => negb (is_ws c)
  | _ :: s' => ends_visible s'
  end.

End Spaces.

(* ================================================================== *)
(** * Reading the document ([extractTextFromPDF]) *)
(* ================================================================== *)

Module Extraction.
Import Classifier.

(** What MuPDF answers for one page: [loadPage] throws, or the page is
    there and each of the two text extractions, the structured one (with
    'preserve-whitespace,preserve-spans') and the basic one, gives its
    text or throws ([None]). *)
Inductive page : Type :=
| LoadFails
| Loaded (structured basic : option jsstring).

(** [pageText] at the end of the inner [try]/[catch]: the structured
    text, or the basic one when the structured extraction threw; [None]
    when the [try] block of the page throws. *)
Definition page_text (p : page) : option jsstring :=
  match p with
  | LoadFails => None
  | Loaded (Some pageText) _ => Some pageText
  | Loaded None basic => basic
  end.

(** The two template literals of the error lines. *)
Definition page_error (pageNum : nat) : jsstring :=
  utf16 "⚠️ Error processing page "
  ++ utf16 (NilEmpty.string_of_uint (Nat.to_uint (pageNum + 1))).

Definition load_error : jsstring :=
  utf16 "❌ Error loading PDF with MuPDF.js. Check console for details.".

(** One turn of [for (let pageNum = 0; pageNum < pageCount; pageNum++)]:
    [allTextLines] after the turn.  The console entries are left out: the
    console is written and never read. *)
Definition page_body (allTextLines : list jsstring) (pageNum : nat) (p : page)
  : list jsstring :=
  match page_text p with
  | Some pageText =>
      if truthy (trim pageText)
      then allTextLines ++ parsed_lines pageText
      else allTextLines
  | None => allTextLines ++ [page_error pageNum]
  end.

Fixpoint pages_loop (pageNum : nat) (pages : list page)
                    (allTextLines : list jsstring) : list jsstring :=
  match pages with
  | [] => allTextLines
  | p :: pages' => pages_loop (S pageNum) pages' (page_body allTextLines pageNum p)
  end.

(** The state of [EditorScreen] the function writes. *)
Record loading : Type := {
  isLoading : bool;
  textLines : list jsstring
}.

(** [extractTextFromPDF(file)]: the document opens on its pages, or
    something outside the loop over the pages throws ([None]: the import
    of the library, the read of the file, [openDocument], [countPages]).
    [finally] clears [isLoading] either way. *)
Definition extractTextFromPDF (document : option (list page)) (st : loading)
  : loading :=
  match document with
  | Some pages => {| isLoading := false; textLines := pages_loop 0 pages [] |}
  | None => {| isLoading := false; textLines := [load_error] |}
  end.

(** What one page adds to the lines. *)
Definition page_lines (pageNum : nat) (p : page) : list jsstring :=
  page_body [] pageNum p.

Definition readable (p : page) : Prop := page_text p <> None.

(** The texts an action drops on the builder. *)
Definition dropped_text (a : Builder.action) : list jsstring :=
  match a with
  | Builder.DropQuestion text => [text]
  | Builder.DropOption _ text => [text]
  | _ => []
  end.

End Extraction.

(* ================================================================== *)
(** * The page controls of the preview ([PDFPages]) *)
(* ================================================================== *)

From Stdlib Require Import ZArith.

(** The component of the pdf.js editor screens that shows one page of the
    document with its "Previous" and "Next" buttons. *)
Module Pager.

(** [pdfDocument.numPages] and the state [currentPage]. *)
Record pager : Type := {
  numPages : Z;
  currentPage : Z
}.

(** [useState(1)] *)
Definition opened (pages : Z) : pager :=
  {| numPages := pages; currentPage := 1%Z |}.

Definition goToPage (pageNum : Z) (st : pager) : pager :=
  if ((1 <=? pageNum) && (pageNum <=? numPages st))%Z
  then {| numPages := numPages st; currentPage := pageNum |}
  else st.

(** The [disabled] attributes of the two buttons. *)
Definition previous_disabled (st : pager) : bool := (currentPage st <=? 1)%Z.
Definition next_disabled (st : pager) : bool := (numPages st <=? currentPage st)%Z.

(** A press on a button; a disabled button does not fire its handler. *)
Inductive button : Type := Previous | Next.

Definition press (st : pager) (b : button) : pager :=
  match b with
  | Previous =>
      if previous_disabled st then st else goToPage (currentPage st - 1)%Z st
  | Next =>
      if next_disabled st then st else goToPage (currentPage st + 1)%Z st
  end.

(** The page on display is a page of the document. *)
Definition in_range (st : pager) : Prop :=
  (1 <= currentPage st <= numPages st)%Z.

End Pager.

(* ================================================================== *)
(** * The two screens ([App], [UploadScreen]) *)
(* ================================================================== *)

Module Screens.

(** What the code reads of a [File]. *)
Record File : Type := {
  name : jsstring;
  type : jsstring
}.

Inductive screen : Type := upload | editor.

(** The state of [App]. *)
Record app : Type := {
  uploadedFile : option File;
  currentScreen : screen
}.

Definition initial : app := {| uploadedFile := None; currentScreen := upload |}.

Definition handleFileUpload (file : File) (st : app) : app :=
  {| uploadedFile := Some file; currentScreen := editor |}.

Definition handleBackToUpload (st : app) : app :=
  {| uploadedFile := None; currentScreen := upload |}.

(** What a handler of [UploadScreen] does besides clearing the highlight
    of the drop zone: it hands a file to [onFileUpload], it shows an
    alert, or nothing. *)
Inductive outcome : Type :=
| Upload (file : File)
| Alert (message : jsstring)
| Nothing.

Definition is_pdf (file : File) : bool :=
  jsstring_eqb (type file) (utf16 "application/pdf").

(** [handleDrop], on [e.dataTransfer.files]. *)
Definition handleDrop (files : list File) : outcome :=
  match files with
  | file :: _ =>
      if is_pdf file then Upload file
      else Alert (utf16 "Please upload a PDF file")
  | [] => Alert (utf16 "Please upload a PDF file")
  end.

(** [handleFileSelect], on [e.target.files], which may be [null]. *)
Definition handleFileSelect (files : option (list File)) : outcome :=
  match files with
  | Some (file :: _) =>
      if is_pdf file then Upload file
      else Alert (utf16 "Please upload a PDF file")
  | Some [] | None => Nothing
  end.

(** What can happen to the application: files are dropped on the upload
    screen or picked in its file input, or "Back to Upload" is pressed on
    the editor screen.  Only the screen on display takes events. *)
Inductive event : Type :=
| Drop (files : list File)
| Select (files : option (list File))
| Back.

Definition deliver (o : outcome) (st : app) : app :=
  match o with
  | Upload file => handleFileUpload file st
  | Alert _ | Nothing => st
  end.

Definition step (st : app) (e : event) : app :=
  match currentScreen st, e with
  | upload, Drop files => deliver (handleDrop files) st
  | upload, Select files => deliver (handleFileSelect files) st
  | editor, Back => handleBackToUpload st
  | _, _ => st
  end.

Definition run (st : app) (l : list event) : app := fold_left step l st.

End Screens.

(* ================================================================== *)
(** * The lines of the pattern-anchored classifier *)
(* ================================================================== *)

Module AnchoredLines.
Import Anchored.

(** A text with something in it and no white space at either end. *)
Definition trimmed_text (t : jsstring) : Prop := t <> [] /\ trim t = t.

(** What the three [push] calls can push. *)
Inductive line_shape : jsstring -> Prop :=
| LS_question t : trimmed_text t -> line_shape (question_line t)
| LS_option c t :
    (97 <= c)%N -> (c <= 100)%N -> trimmed_text t -> line_shape (option_line [c] t)
| LS_answer t : trimmed_text t -> line_shape (answer_line t).

End AnchoredLines.

(* ================================================================== *)
(** * Reading the document with pdf.js (the earlier editor screen) *)
(* ================================================================== *)

Module PdfJs.

(** What pdf.js answers for one page: the strings of its text items, or
    [None] when [getPage] or [getTextContent] rejects. *)
Definition page : Type := option (list jsstring).

(** [items.join(sep)] *)
Fixpoint join (sep : jsstring) (items : list jsstring) : jsstring :=
  match items with
  | [] => []
  | [item] => item
  | item :: items' => item ++ sep ++ join sep items'
  end.

(** [`--- Page ${pageNum} ---\n${pageText}\n\n`] *)
Definition page_block (pageNum : nat) (pageText : jsstring) : jsstring :=
  utf16 "--- Page " ++ utf16 (NilEmpty.string_of_uint (Nat.to_uint pageNum))
  ++ utf16 " ---" ++ [10%N] ++ pageText ++ [10%N; 10%N].

(** The loop over the pages, from [pageNum] on: [fullText] and
    [allTextLines] at its end, or [None] when a page rejects and the loop
    is left for the [catch]. *)
Fixpoint pages_loop (pageNum : nat) (pages : list page)
                    (fullText : jsstring) (allTextLines : list jsstring)
  : option (jsstring * list jsstring) :=
  match pages with
  | [] => Some (fullText, allTextLines)
  | None :: _ => None
  | Some items :: pages' =>
      let pageText := join (utf16 " ") items in
      pages_loop (S pageNum) pages'
                 (fullText ++ page_block pageNum pageText)
                 (allTextLines ++ Anchored.parseQuizText pageText)
  end.

(** The state of the screen the function writes. *)
Record viewer : Type := {
  pdfText : jsstring;
  isLoading : bool;
  textLines : list jsstring
}.

Definition extraction_error : jsstring := utf16 "Error extracting text from PDF".
Definition no_text : jsstring := utf16 "No text found in PDF".

(** [extractTextFromPDF(file)]; [None] when [getDocument] rejects. *)
Definition extractTextFromPDF (document : option (list page)) (st : viewer)
  : viewer :=
  match match document with
        | Some pages => pages_loop 1 pages [] []
        | None => None
        end with
  | Some (fullText, allTextLines) =>
      {| pdfText := if truthy fullText then fullText else no_text;
         isLoading := false;
         textLines := allTextLines |}
  | None =>
      {| pdfText := extraction_error;
         isLoading := false;
         textLines := textLines st |}
  end.

End PdfJs.

(* ================================================================== *)
(** * Headings in capitals *)
(* ================================================================== *)

Module Headings.

(** The class [[A-Z\s]] of the header pattern. *)
Definition capital_or_space (c : cu) : bool :=
  ((65 <=? c) && (c <=? 90))%N || is_ws c.

End Headings.
(* ================================================================== *)
(** * The model at work *)
(* ================================================================== *)

Section Examples.
Import Classifier.

Example utf16_ascii : utf16 "Ans:b" = [65; 110; 115; 58; 98]%N.
Proof. reflexivity. Qed.

Example utf16_bullet : utf16 "•" = [8226%N].
Proof. reflexivity. Qed.

Example utf16_surrogates : utf16 "🔘" = [55357; 56600]%N.
Proof. reflexivity. Qed.

Example trim_both_ends : trim (utf16 "  a b  ") = utf16 "a b".
Proof. reflexivity. Qed.

Example remove_first_once :
  remove_first (utf16 "ab") (utf16 "xabyab") = utf16 "xyab".
Proof. reflexivity. Qed.

(** ["\nabc\n\ndef\n".split(/\n+/)] is [["", "abc", "def", ""]]. *)
Example split_runs_of_newlines :
  split re_newlines ([10%N] ++ utf16 "abc" ++ [10; 10]%N ++ utf16 "def" ++ [10%N])
  = [[]; utf16 "abc"; utf16 "def"; []].
Proof. vm_compute; reflexivity. Qed.

(** ["1. a 12. b".split(/(?=\d+\.\s)/)] is [["1. a ", "1", "2. b"]]. *)
Example split_before_numbers :
  split Anchored.re_blocks (utf16 "1. a 12. b")
  = [utf16 "1. a "; utf16 "1"; utf16 "2. b"].
Proof. vm_compute; reflexivity. Qed.

Example normalize_collapses :
  normalize ([32; 9]%N ++ utf16 "a   b" ++ [9; 32]%N ++ utf16 "c ") = utf16 "a b c".
Proof. vm_compute; reflexivity. Qed.

Example role_question : role_of (utf16 "12) Which one?") = Some Question.
Proof. vm_compute; reflexivity. Qed.

Example role_option_bare : role_of (utf16 "c. five and more") = Some Option_.
Proof. vm_compute; reflexivity. Qed.

Example role_option_dash : role_of (utf16 "- [B] four") = Some Option_.
Proof. vm_compute; reflexivity. Qed.

Example role_answer_any_case : role_of (utf16 "ANSWERS: b, c") = Some Answer.
Proof. vm_compute; reflexivity. Qed.

(** "Solution:" is taken by the answer pattern, which comes first. *)
Example role_solution : role_of (utf16 "Solution: see above") = Some Answer.
Proof. vm_compute; reflexivity. Qed.

Example role_explanation : role_of (utf16 "because: it is so") = Some Explanation.
Proof. vm_compute; reflexivity. Qed.

Example role_plain : role_of (utf16 "Some running text here") = Some Plain.
Proof. vm_compute; reflexivity. Qed.

Example role_header_dropped : role_of (utf16 "CHAPTER ONE REVIEW") = None.
Proof. vm_compute; reflexivity. Qed.

Example role_short_dropped : role_of (utf16 "short text") = None.
Proof. vm_compute; reflexivity. Qed.

(** The lazy group of the anchored option pattern stops before the next
    bullet. *)
Example anchored_option_groups :
  map (fun r => (group 1 r, group 2 r))
      (matchAll Anchored.re_option (utf16 "• (a) 3 •(b) 4 Answer: b"))
  = [(utf16 "a", utf16 "3"); (utf16 "b", utf16 "4 ")].
Proof. vm_compute; reflexivity. Qed.

End Examples.

(* ================================================================== *)
(** * Properties of the question builder *)
(* ================================================================== *)

Section BuilderFacts.
Import Builder.

Lemma truthy_true (s : jsstring) : truthy s = true <-> s <> [].
Proof. destruct s; simpl; split; congruence. Qed.

Lemma truthy_false (s : jsstring) : truthy s = false <-> s = [].
Proof. destruct s; simpl; split; congruence. Qed.

(** ** The option array always has its four entries *)

Lemma assign_length (arr : list jsstring) (i : nat) (v : jsstring) :
  List.length (assign arr i v) = List.length arr.
Proof.
  revert i; induction arr as [|x arr IH]; intros [|i]; simpl; auto.
Qed.

Lemma assign_nth_same (arr : list jsstring) (i : nat) (v : jsstring) :
  i < List.length arr -> nth i (assign arr i v) [] = v.
Proof.
  revert i; induction arr as [|x arr IH]; intros [|i]; simpl; intros Hi;
    try lia; auto.
  apply IH; lia.
Qed.

Lemma assign_nth_other (arr : list jsstring) (i j : nat) (v : jsstring) :
  i <> j -> nth j (assign arr i v) [] = nth j arr [].
Proof.
  revert i j; induction arr as [|x arr IH]; intros [|i] [|j]; simpl; intros Hij;
    try congruence; auto.
Qed.

Lemma initial_well_formed : well_formed initial.
Proof. split; [reflexivity | constructor]. Qed.

Lemma step_well_formed (s : state) (a : action) :
  well_formed s -> well_formed (step s a).
Proof.
  intros [Hq Hl]. destruct a as [text | l text | l | | ]; simpl.
  - split; assumption.
  - split; [unfold four_options; simpl; rewrite assign_length; exact Hq | assumption].
  - split; assumption.
  - unfold fire, addQuestion, with_props.
    destruct (canCommit (currentQuestion s)); simpl.
    + split; [reflexivity |].
      apply Forall_app; split; [assumption | constructor; [assumption | constructor]].
    + split; assumption.
  - split; assumption.
Qed.

Lemma run_well_formed (l : list action) (s : state) :
  well_formed s -> well_formed (run s l).
Proof.
  revert s; induction l as [|a l IH]; intros s Hs; simpl; [assumption |].
  apply IH, step_well_formed, Hs.
Qed.

Lemma reachable_well_formed (s : state) : reachable s -> well_formed s.
Proof. intros [l ->]. apply run_well_formed, initial_well_formed. Qed.

Lemma reachable_initial : reachable initial.
Proof. exists []; reflexivity. Qed.

Lemma reachable_run (l : list action) : reachable (run initial l).
Proof. exists l; reflexivity. Qed.

Lemma four_entries (arr : list jsstring) :
  List.length arr = 4 ->
  exists a b c d, arr = [a; b; c; d].
Proof.
  destruct arr as [|a [|b [|c [|d [|e arr]]]]]; simpl; intros H; try discriminate.
  now exists a, b, c, d.
Qed.

(** ** canCommit *)

(** What the condition of the source says, for an option array of any
    length. *)
Lemma canCommit_spec (q : QuestionData) :
  canCommit q = true <->
  questionText q <> [] /\
  (forall opt, In opt (option_with_images_ q) -> trim opt <> []).
Proof.
  unfold canCommit. rewrite andb_true_iff, truthy_true, forallb_forall.
  split; intros [H1 H2]; split; auto; intros opt Hin.
  - apply truthy_true, H2, Hin.
  - apply truthy_true, H2, Hin.
Qed.

(** C1, as the source has it: in every state the builder can reach,
    through any interleaving of drops, selections and clicks, the draft
    can be committed iff its question text is not the empty string (the
    text is taken as it is, white space counts) and each of its four
    options is non-empty once trimmed. *)
Theorem canCommit_reachable (s : state) (H : reachable s) :
  canCommit (currentQuestion s) = true <->
  questionText (currentQuestion s) <> [] /\
  (forall l : letter,
      trim (nth (index_of l) (option_with_images_ (currentQuestion s)) []) <> []).
Proof.
  destruct (reachable_well_formed H) as [Hq _].
  destruct (four_entries _ Hq) as (a & b & c & d & Hopts).
  rewrite canCommit_spec, Hopts. split; intros [Hs Ho]; split; auto.
  - intros l; apply Ho; destruct l; simpl; auto.
  - intros opt [<- | [<- | [<- | [<- | []]]]].
    + exact (Ho A). + exact (Ho B). + exact (Ho C). + exact (Ho D).
Qed.

Lemma canCommit_reachable_witness :
  reachable Scenario.filled /\
  (canCommit (currentQuestion Scenario.filled) = true <->
   questionText (currentQuestion Scenario.filled) <> [] /\
   (forall l : letter,
       trim (nth (index_of l)
                 (option_with_images_ (currentQuestion Scenario.filled)) []) <> [])).
Proof.
  split.
  - exists Scenario.fill_actions; reflexivity.
  - apply (@canCommit_reachable Scenario.filled).
    exists Scenario.fill_actions; reflexivity.
Defined.

(** The two readings agree on every draft whose question text is empty or
    has something other than white space in it. *)
Lemma canCommit_trimmed_unless_blank (q : QuestionData) :
  questionText q = [] \/ trim (questionText q) <> [] ->
  (canCommit q = true <->
   trim (questionText q) <> [] /\
   (forall opt, In opt (option_with_images_ q) -> trim opt <> [])).
Proof.
  intros Hq. rewrite canCommit_spec.
  split; intros [Hs Ho]; (split; [| exact Ho]).
  - destruct Hq as [Hq | Hq]; [contradiction | exact Hq].
  - intros He. rewrite He in Hs. apply Hs. reflexivity.
Qed.

(** C1 as claimed fails: a question text of one space, with four options
    filled, is blank once trimmed and yet the draft can be committed. *)
Lemma canCommit_blank_stem :
  reachable Scenario.blank_stem /\
  trim (questionText (currentQuestion Scenario.blank_stem)) = [] /\
  canCommit (currentQuestion Scenario.blank_stem) = true.
Proof.
  split; [exists Scenario.blank_stem_actions; reflexivity |].
  split; vm_compute; reflexivity.
Qed.

(** ** addQuestion *)

(** C3: on a draft that can be committed, [addQuestion] appends the draft
    as it is (number included) to the committed list, which grows by one,
    and installs a fresh draft numbered old length + 2, with empty text
    and options and answer "A". *)
Theorem addQuestion_commits (s : state)
    (H : canCommit (currentQuestion s) = true) :
  let s' := snd (fire addQuestion s) in
  fst (fire addQuestion s) = Normal tt /\
  questionsArray s' = questionsArray s ++ [currentQuestion s] /\
  List.length (questionsArray s') = List.length (questionsArray s) + 1 /\
  questionNumber (currentQuestion s') = List.length (questionsArray s) + 2 /\
  questionText (currentQuestion s') = [] /\
  question_images (currentQuestion s') = [] /\
  option_with_images_ (currentQuestion s') = [[]; []; []; []] /\
  correct_answer (currentQuestion s') = utf16 "A".
Proof.
  unfold fire, addQuestion, with_props. rewrite H. simpl.
  repeat split. rewrite length_app; reflexivity.
Qed.

Lemma addQuestion_commits_witness :
  canCommit (currentQuestion Scenario.filled) = true /\
  questionsArray (snd (fire addQuestion Scenario.filled))
  = questionsArray Scenario.filled ++ [currentQuestion Scenario.filled].
Proof.
  split; [vm_compute; reflexivity |].
  apply (@addQuestion_commits Scenario.filled). vm_compute; reflexivity.
Defined.

(** C4, as the source has it: on a draft that cannot be committed
    [addQuestion] returns normally, throwing nothing, and queues no
    update: draft, committed list and number are left as they were. *)
Theorem addQuestion_rejects_silently (s : state)
    (H : canCommit (currentQuestion s) = false) :
  fire addQuestion s = (Normal tt, s).
Proof.
  unfold fire, addQuestion, with_props. rewrite H. reflexivity.
Qed.

Lemma addQuestion_rejects_silently_witness :
  canCommit (currentQuestion Scenario.three_options) = false /\
  fire addQuestion Scenario.three_options = (Normal tt, Scenario.three_options).
Proof.
  split; [vm_compute; reflexivity |].
  apply (@addQuestion_rejects_silently Scenario.three_options).
  vm_compute; reflexivity.
Defined.

(** C4 as claimed fails: with three options out of four the draft cannot
    be committed, and [addQuestion] does not end in an error. *)
Lemma addQuestion_no_error :
  canCommit (currentQuestion Scenario.three_options) = false /\
  ~ (exists e, fst (fire addQuestion Scenario.three_options) = Throw e).
Proof.
  split; [vm_compute; reflexivity |].
  intros [e He]. vm_compute in He. discriminate He.
Qed.

(** [addQuestion] never throws, whatever the draft. *)
Lemma addQuestion_returns (s : state) : fst (fire addQuestion s) = Normal tt.
Proof.
  unfold fire, addQuestion, with_props.
  destruct (canCommit (currentQuestion s)); reflexivity.
Qed.

(** ** exportJSON *)

Lemma exportJSON_fire (s : state) :
  fire exportJSON s =
  (Normal {| filename := utf16 "questions.json";
             finalArray := questionsArray s ++
                           (if canCommit (currentQuestion s)
                            then [currentQuestion s] else []) |}, s).
Proof.
  unfold fire, exportJSON, with_props, ret.
  destruct (canCommit (currentQuestion s)); [reflexivity |].
  rewrite app_nil_r; reflexivity.
Qed.

(** C5: [exportJSON] queues no update, so draft, committed list and
    [canCommit] are what they were, and a second export right after the
    first hands over the same download. *)
Theorem exportJSON_frame (s : state) :
  let s' := snd (fire exportJSON s) in
  s' = s /\
  currentQuestion s' = currentQuestion s /\
  questionsArray s' = questionsArray s /\
  canCommit (currentQuestion s') = canCommit (currentQuestion s) /\
  fst (fire exportJSON s') = fst (fire exportJSON s).
Proof.
  cbv zeta. rewrite exportJSON_fire. cbn [snd fst].
  rewrite exportJSON_fire. repeat split.
Qed.

(** The committed list is the list of the drafts committed, in the order
    they were committed in. *)
Lemma run_committed (l : list action) (s : state) :
  questionsArray (run s l) = questionsArray s ++ committed_by s l.
Proof.
  revert s; induction l as [|a l IH]; intros s; cbn [run fold_left committed_by].
  - rewrite app_nil_r; reflexivity.
  - change (fold_left step l (step s a)) with (run (step s a) l). rewrite IH.
    rewrite app_assoc. f_equal.
    destruct a as [text | lt text | lt | | ]; cbn [step];
      try (rewrite app_nil_r; reflexivity).
    unfold fire, addQuestion, with_props.
    destruct (canCommit (currentQuestion s)); cbn; [| rewrite app_nil_r]; reflexivity.
Qed.

(** C6: in every state the builder can reach, with N committed
    questions, [exportJSON] hands over the committed questions in the
    order they were committed in, followed by the draft exactly when the
    draft can be committed; that makes N or N + 1 records, each with four
    option entries, the entry at the index of a letter being the text last
    dropped on the zone of that letter. *)
Theorem exportJSON_contents (s : state) (H : reachable s) :
  exists d,
    fst (fire exportJSON s) = Normal d /\
    (exists l, s = run initial l /\ questionsArray s = committed_by initial l) /\
    finalArray d = questionsArray s ++
                   (if canCommit (currentQuestion s) then [currentQuestion s] else []) /\
    List.length (finalArray d)
    = List.length (questionsArray s) + (if canCommit (currentQuestion s) then 1 else 0) /\
    Forall (fun q => List.length (option_with_images_ q) = 4) (finalArray d) /\
    (forall l text,
        let q := currentQuestion (step s (DropOption l text)) in
        nth (index_of l) (option_with_images_ q) [] = text /\
        forall l', l' <> l ->
          nth (index_of l') (option_with_images_ q) []
          = nth (index_of l') (option_with_images_ (currentQuestion s)) []).
Proof.
  destruct (reachable_well_formed H) as [Hq Hl].
  rewrite exportJSON_fire. eexists; split; [reflexivity |]. simpl.
  split.
  { destruct H as [l ->]. exists l; split; [reflexivity |].
    rewrite run_committed. reflexivity. }
  split; [reflexivity |]. split; [| split].
  - rewrite length_app. destruct (canCommit (currentQuestion s)); reflexivity.
  - apply Forall_app; split; [exact Hl |].
    destruct (canCommit (currentQuestion s)); repeat constructor. exact Hq.
  - intros l text; split.
    + apply assign_nth_same. unfold four_options in Hq. rewrite Hq.
      destruct l; simpl; lia.
    + intros l' Hl'. apply assign_nth_other.
      destruct l, l'; simpl; congruence.
Qed.

Lemma exportJSON_contents_witness :
  reachable Scenario.filled /\
  exists d,
    fst (fire exportJSON Scenario.filled) = Normal d /\
    List.length (finalArray d) = 1.
Proof.
  split; [exists Scenario.fill_actions; reflexivity |].
  destruct (@exportJSON_contents Scenario.filled
              (ex_intro _ Scenario.fill_actions eq_refl))
    as (d & Hd & _ & _ & Hlen & _).
  exists d; split; [exact Hd | exact Hlen].
Defined.

End BuilderFacts.

(* ================================================================== *)
(** * Properties of the matcher *)
(* ================================================================== *)

Section MatcherFacts.
Variables (ci : bool) (n : nat).

Lemma or_else_some {A} (a b : option A) (z : A) :
  or_else a b = Some z -> a = Some z \/ b = Some z.
Proof. destruct a; simpl; auto. Qed.

(** What a repetition accepts, it accepts at an end state of the
    repeated pattern iterated. *)
Lemma repeat_matcher_ends (r : regex) (greedy : bool)
      (k : mstate -> option mstate)
      (IH : forall x k z, m ci n r x k = Some z ->
                          exists y, ends ci n r x y /\ k y = Some z)
      (fuel : nat) (x z : mstate) :
  repeat_matcher (m ci n r) greedy k fuel x = Some z ->
  exists y, ends ci n (Star greedy r) x y /\ k y = Some z.
Proof.
  revert x; induction fuel as [|fuel IHf]; intros x H.
  - exists x; split; [constructor | exact H].
  - cbn [repeat_matcher] in H.
    assert (Hcases :
      m ci n r x (fun y => if List.length (rest y) <? List.length (rest x)
                           then repeat_matcher (m ci n r) greedy k fuel y
                           else None) = Some z \/ k x = Some z).
    { destruct greedy; apply or_else_some in H; tauto. }
    destruct Hcases as [Hmore | Hstop].
    + apply IH in Hmore as (y & Hy & Hk).
      destruct (List.length (rest y) <? List.length (rest x)) eqn:Hlt;
        [| discriminate].
      apply Nat.ltb_lt in Hlt. apply IHf in Hk as (y' & Hy' & Hk').
      exists y'; split; [| exact Hk']. eapply E_Star_more; eassumption.
    + exists x; split; [constructor | exact Hstop].
Qed.

(** Soundness of the matcher: a result comes from the continuation, called
    on an end state of the pattern. *)
Lemma m_ends (r : regex) :
  forall x k z, m ci n r x k = Some z ->
                exists y, ends ci n r x y /\ k y = Some z.
Proof.
  induction r as [ | l | | t | r1 IH1 r2 IH2 | r1 IH1 r2 IH2 | g r IH
                   | i r IH | r IH | | ]; intros x k z H; cbn [m] in H.
  - exists x; split; [constructor | exact H].
  - destruct (rest x) as [|c s] eqn:Hx; [discriminate |].
    destruct (existsb _ l) eqn:Hc; [| discriminate].
    exists (goto x s); split; [econstructor; eassumption | exact H].
  - destruct (rest x) as [|c s] eqn:Hx; [discriminate |].
    destruct (is_line_terminator c) eqn:Hc; [discriminate |].
    exists (goto x s); split; [econstructor; eassumption | exact H].
  - destruct (lit_match ci t (rest x)) as [s|] eqn:Hx; [| discriminate].
    exists (goto x s); split; [constructor; exact Hx | exact H].
  - apply IH1 in H as (y & Hy & H). apply IH2 in H as (y' & Hy' & H).
    exists y'; split; [econstructor; eassumption | exact H].
  - apply or_else_some in H as [H | H].
    + apply IH1 in H as (y & Hy & H). exists y; split; [constructor 6 | ]; assumption.
    + apply IH2 in H as (y & Hy & H). exists y; split; [constructor 7 | ]; assumption.
  - eapply repeat_matcher_ends; eassumption.
  - apply IH in H as (y & Hy & H).
    eexists; split; [constructor; exact Hy | exact H].
  - destruct (m ci n r x Some) as [y|] eqn:Hy; [| discriminate].
    apply IH in Hy as (y' & Hy' & Heq). inversion Heq; subst y'.
    eexists; split; [constructor; exact Hy' | exact H].
  - destruct (Nat.eqb (List.length (rest x)) n) eqn:Hn; [| discriminate].
    apply Nat.eqb_eq in Hn. exists x; split; [constructor; exact Hn | exact H].
  - destruct (rest x) eqn:Hx; [| discriminate].
    exists x; split; [constructor; exact Hx | exact H].
Qed.

Lemma lit_match_suffix (t s s' : jsstring) :
  lit_match ci t s = Some s' ->
  exists p, s = p ++ s' /\ List.length p = List.length t.
Proof.
  revert s; induction t as [|a t IH]; intros s H; simpl in H.
  - inversion H; subst. exists []; split; reflexivity.
  - destruct s as [|b s]; [discriminate |].
    destruct (cu_eqb _ _); [| discriminate].
    apply IH in H as (p & -> & Hp). exists (b :: p); split; simpl; congruence.
Qed.

(** A pattern only moves forward: where it stops is a suffix of where it
    started. *)
Lemma ends_suffix (r : regex) (x y : mstate) :
  ends ci n r x y -> exists p, rest x = p ++ rest y.
Proof.
  induction 1 as [ x | l x c s Hx _ | x c s Hx _ | t x s Hx
                 | r1 r2 x y z _ IH1 _ IH2 | r1 r2 x y _ IH | r1 r2 x y _ IH
                 | g r x | g r x y z _ IH1 _ _ IH2 | i r x y _ IH
                 | r x y _ IH | x _ | x _ ].
  - exists []; reflexivity.
  - exists [c]; rewrite Hx; reflexivity.
  - exists [c]; rewrite Hx; reflexivity.
  - apply lit_match_suffix in Hx as (p & Hp & _). exists p; exact Hp.
  - destruct IH1 as (p1 & ->), IH2 as (p2 & ->).
    exists (p1 ++ p2); rewrite app_assoc; reflexivity.
  - exact IH.
  - exact IH.
  - exists []; reflexivity.
  - destruct IH1 as (p1 & ->), IH2 as (p2 & ->).
    exists (p1 ++ p2); rewrite app_assoc; reflexivity.
  - exact IH.
  - exists []; reflexivity.
  - exists []; reflexivity.
  - exists []; reflexivity.
Qed.

Lemma ends_group_free (r : regex) (x y : mstate) :
  ends ci n r x y -> group_free r = true -> caps y = caps x.
Proof.
  induction 1 as [ x | l x c s _ _ | x c s _ _ | t x s _
                 | r1 r2 x y z _ IH1 _ IH2 | r1 r2 x y _ IH | r1 r2 x y _ IH
                 | g r x | g r x y z _ IH1 _ _ IH2 | i r x y _ IH
                 | r x y _ IH | x _ | x _ ]; cbn [group_free]; intros Hg;
    try reflexivity.
  - apply andb_true_iff in Hg as [Hg1 Hg2]. rewrite IH2, IH1; auto.
  - apply andb_true_iff in Hg as [Hg1 Hg2]. auto.
  - apply andb_true_iff in Hg as [Hg1 Hg2]. auto.
  - rewrite IH2, IH1; auto.
  - discriminate.
  - cbn [caps]. auto.
Qed.

Lemma ends_seq (r1 r2 : regex) (x z : mstate) :
  ends ci n (Seq r1 r2) x z -> exists y, ends ci n r1 x y /\ ends ci n r2 y z.
Proof. inversion 1; subst; eauto. Qed.

Lemma ends_eps (x y : mstate) : ends ci n Eps x y -> y = x.
Proof. inversion 1; reflexivity. Qed.

Lemma ends_group (i : nat) (r : regex) (x z : mstate) :
  ends ci n (Group i r) x z ->
  exists y, ends ci n r x y /\
            z = set_cap i (firstn (List.length (rest x) - List.length (rest y)) (rest x)) y.
Proof. inversion 1; subst; eauto. Qed.

Lemma ends_look (r : regex) (x z : mstate) :
  ends ci n (Look r) x z ->
  exists y, ends ci n r x y /\ z = {| rest := rest x; caps := caps y |}.
Proof. inversion 1; subst; eauto. Qed.

Lemma ends_cls (l : list atom) (x z : mstate) :
  ends ci n (Cls l) x z ->
  exists c s, rest x = c :: s /\ existsb (fun a => atom_match ci a c) l = true /\
              z = goto x s.
Proof. inversion 1; subst; eauto. Qed.

(** ** The fuel of a repetition is never used up *)

Lemma lit_match_length (t s s' : jsstring) :
  lit_match ci t s = Some s' -> List.length s' <= List.length s.
Proof.
  intros H. apply lit_match_suffix in H as (p & -> & _).
  rewrite length_app; lia.
Qed.

(** The matcher looks at its continuation on states that are not behind
    the one it starts from. *)
Lemma repeat_matcher_ext (r : regex) (greedy : bool)
      (IH : forall x k1 k2,
          (forall y, List.length (rest y) <= List.length (rest x) -> k1 y = k2 y) ->
          m ci n r x k1 = m ci n r x k2)
      (fuel : nat) :
  forall x k1 k2,
    (forall y, List.length (rest y) <= List.length (rest x) -> k1 y = k2 y) ->
    repeat_matcher (m ci n r) greedy k1 fuel x
    = repeat_matcher (m ci n r) greedy k2 fuel x.
Proof.
  induction fuel as [|fuel IHf]; intros x k1 k2 Hk; cbn [repeat_matcher].
  - apply Hk; lia.
  - rewrite (Hk x) by lia.
    assert (Hagain :
      m ci n r x (fun y => if List.length (rest y) <? List.length (rest x)
                           then repeat_matcher (m ci n r) greedy k1 fuel y else None)
      = m ci n r x (fun y => if List.length (rest y) <? List.length (rest x)
                             then repeat_matcher (m ci n r) greedy k2 fuel y else None)).
    { apply IH. intros y Hy.
      destruct (List.length (rest y) <? List.length (rest x)); [| reflexivity].
      apply IHf. intros y' Hy'. apply Hk; lia. }
    rewrite Hagain. reflexivity.
Qed.

Lemma m_ext (r : regex) :
  forall x k1 k2,
    (forall y, List.length (rest y) <= List.length (rest x) -> k1 y = k2 y) ->
    m ci n r x k1 = m ci n r x k2.
Proof.
  induction r as [ | l | | t | r1 IH1 r2 IH2 | r1 IH1 r2 IH2 | g r IH
                   | i r IH | r IH | | ]; intros x k1 k2 Hk; cbn [m].
  - apply Hk; lia.
  - destruct (rest x) as [|c s] eqn:Hx; [reflexivity |].
    destruct (existsb _ l); [| reflexivity].
    apply Hk. simpl; rewrite ?Hx; simpl; lia.
  - destruct (rest x) as [|c s] eqn:Hx; [reflexivity |].
    destruct (is_line_terminator c); [reflexivity |].
    apply Hk. simpl; rewrite ?Hx; simpl; lia.
  - destruct (lit_match ci t (rest x)) as [s|] eqn:Hx; [| reflexivity].
    apply Hk. simpl. eapply lit_match_length; eassumption.
  - apply IH1. intros y Hy. apply IH2. intros y' Hy'. apply Hk; lia.
  - rewrite (IH1 x k1 k2 Hk), (IH2 x k1 k2 Hk). reflexivity.
  - apply repeat_matcher_ext; assumption.
  - apply IH. intros y Hy. apply Hk. simpl; lia.
  - destruct (m ci n r x Some); [| reflexivity]. apply Hk. simpl; lia.
  - rewrite (Hk x) by lia. reflexivity.
  - rewrite (Hk x) by lia. reflexivity.
Qed.

(** Any fuel above the number of code units left gives the same result:
    the branch of [repeat_matcher] for a fuel used up is never taken. *)
Lemma repeat_matcher_fuel (r : regex) (greedy : bool)
      (k : mstate -> option mstate) (fuel1 fuel2 : nat) (x : mstate) :
  List.length (rest x) < fuel1 -> List.length (rest x) < fuel2 ->
  repeat_matcher (m ci n r) greedy k fuel1 x
  = repeat_matcher (m ci n r) greedy k fuel2 x.
Proof.
  revert fuel2 x; induction fuel1 as [|fuel1 IH]; intros fuel2 x H1 H2; [lia |].
  destruct fuel2 as [|fuel2]; [lia |]. cbn [repeat_matcher].
  assert (Hagain :
    m ci n r x (fun y => if List.length (rest y) <? List.length (rest x)
                         then repeat_matcher (m ci n r) greedy k fuel1 y else None)
    = m ci n r x (fun y => if List.length (rest y) <? List.length (rest x)
                           then repeat_matcher (m ci n r) greedy k fuel2 y else None)).
  { apply m_ext. intros y _.
    destruct (List.length (rest y) <? List.length (rest x)) eqn:Hlt; [| reflexivity].
    apply Nat.ltb_lt in Hlt. apply IH; lia. }
  rewrite Hagain. reflexivity.
Qed.

End MatcherFacts.

(** ** [exec], [matchAll] *)

Section ExecFacts.
Variable re : RegExp.

(** A match found at an index is an end state of the pattern started
    there, and cuts the input in the match and what follows it. *)
Lemma match_at_ends (i : nat) (s : jsstring) (r : match_result) :
  match_at re i s = Some r ->
  exists y,
    ends (ignoreCase re) (i + List.length s) (pattern re)
         {| rest := s; caps := [] |} y /\
    groups r = caps y /\ after r = rest y /\ index r = i /\
    s = whole r ++ after r.
Proof.
  unfold match_at. intros H.
  destruct (m _ _ _ _ Some) as [y|] eqn:Hm; [| discriminate].
  apply m_ends in Hm as (y' & Hy' & Heq). inversion Heq; subst y'; clear Heq.
  inversion H; subst r; clear H. exists y. cbn [groups after index whole].
  repeat split; try assumption.
  apply ends_suffix in Hy' as (p & Hp). cbn [rest] in Hp. subst s.
  rewrite length_app, Nat.add_sub, firstn_app, Nat.sub_diag, firstn_all.
  simpl. rewrite app_nil_r. reflexivity.
Qed.

Lemma exec_from_match_at (i : nat) (s : jsstring) (r : match_result) :
  exec_from re i s = Some r ->
  exists i' s' p, match_at re i' s' = Some r /\ s = p ++ s'.
Proof.
  revert i; induction s as [|c s IH]; intros i H; cbn [exec_from] in H.
  - destruct (match_at re i []) eqn:Hm; [| discriminate].
    inversion H; subst. exists i, [], []; auto.
  - destruct (match_at re i (c :: s)) eqn:Hm.
    + inversion H; subst. exists i, (c :: s), []; auto.
    + apply IH in H as (i' & s' & p & Hm' & ->).
      exists i', s', (c :: p); auto.
Qed.

Lemma matchAll_from_match_at (fuel i : nat) (s : jsstring) (r : match_result) :
  In r (matchAll_from re fuel i s) ->
  exists i' s', match_at re i' s' = Some r.
Proof.
  revert i s; induction fuel as [|fuel IH]; intros i s H; [contradiction |].
  cbn [matchAll_from] in H.
  destruct (exec_from re i s) as [r0|] eqn:He; [| contradiction].
  destruct H as [<- | H].
  - apply exec_from_match_at in He as (i' & s' & _ & Hm & _). eauto.
  - destruct (whole r0), (after r0); try contradiction; eapply IH; eassumption.
Qed.

Lemma matchAll_match_at (s : jsstring) (r : match_result) :
  In r (matchAll re s) -> exists i' s', match_at re i' s' = Some r.
Proof. apply matchAll_from_match_at. Qed.

Lemma exec_from_length (i : nat) (s : jsstring) (r : match_result) :
  exec_from re i s = Some r ->
  List.length (whole r) + List.length (after r) <= List.length s.
Proof.
  intros H. apply exec_from_match_at in H as (i' & s' & p & Hm & ->).
  apply match_at_ends in Hm as (_ & _ & _ & _ & _ & ->).
  rewrite !length_app; lia.
Qed.

(** [matchAll] and [split] never use up their fuel either. *)
Lemma matchAll_from_fuel (fuel1 fuel2 i : nat) (s : jsstring) :
  List.length s < fuel1 -> List.length s < fuel2 ->
  matchAll_from re fuel1 i s = matchAll_from re fuel2 i s.
Proof.
  revert fuel2 i s; induction fuel1 as [|fuel1 IH]; intros fuel2 i s H1 H2; [lia |].
  destruct fuel2 as [|fuel2]; [lia |]. cbn [matchAll_from].
  destruct (exec_from re i s) as [r|] eqn:He; [| reflexivity].
  apply exec_from_length in He. f_equal.
  destruct (whole r) as [|c w], (after r) as [|c' a]; cbn [List.length] in He;
    try reflexivity; apply IH; cbn [List.length]; lia.
Qed.

Lemma split_from_fuel (fuel1 fuel2 : nat) (cur : jsstring) (q : nat) (s : jsstring) :
  2 * List.length s + (match cur with [] => 0 | _ => 1 end) < fuel1 ->
  2 * List.length s + (match cur with [] => 0 | _ => 1 end) < fuel2 ->
  split_from re fuel1 cur q s = split_from re fuel2 cur q s.
Proof.
  revert fuel2 cur q s; induction fuel1 as [|fuel1 IH]; intros fuel2 cur q s H1 H2;
    [lia |].
  destruct fuel2 as [|fuel2]; [lia |]. cbn [split_from].
  destruct s as [|c s']; [reflexivity |]. cbn [List.length] in H1, H2.
  destruct (match_at re q (c :: s')) as [r|] eqn:Hm.
  - apply match_at_ends in Hm as (_ & _ & _ & _ & _ & Hs).
    destruct (Nat.eqb _ _) eqn:He.
    + apply IH; cbn [List.length]; lia.
    + f_equal.
      assert (Hlen : List.length (c :: s')
                     = List.length (whole r) + List.length (after r))
        by (rewrite Hs at 1; apply length_app).
      cbn [List.length] in Hlen.
      destruct (whole r) as [|c0 w] eqn:Hw.
      * (* an empty separator found after some text: [cur] is not empty *)
        destruct cur as [|c1 cur'].
        -- cbn [List.length] in He. rewrite Nat.add_0_r, Nat.sub_0_r in He.
           rewrite Nat.eqb_refl in He. discriminate.
        -- cbn [List.length] in Hlen. apply IH; lia.
      * cbn [List.length] in Hlen. apply IH; cbn [List.length]; lia.
  - apply IH; cbn [List.length]; lia.
Qed.

End ExecFacts.

(* ================================================================== *)
(** * Properties of the patterns *)
(* ================================================================== *)

Section PatternFacts.
Import Classifier Chunks.

Lemma skip_newlines_length (s : jsstring) :
  List.length (skip_newlines s) <= List.length s.
Proof.
  induction s as [|c s IH]; simpl; [lia |].
  destruct (is_newline c); simpl; lia.
Qed.

(** The body of [/\n+/]: one newline. *)
Lemma m_newline (n : nat) (x : mstate) (k : mstate -> option mstate) :
  m false n (Cls [AChar 10%N]) x k =
  match rest x with
  | c :: s => if is_newline c then k (goto x s) else None
  | [] => None
  end.
Proof.
  cbn [m]. destruct (rest x) as [|c s]; [reflexivity |].
  cbn [existsb atom_match canon andb]. unfold cu_eqb, is_newline.
  rewrite N.eqb_sym, orb_false_r. reflexivity.
Qed.

(** [\n*], greedy, followed by nothing: it eats the newlines in front. *)
Lemma repeat_newlines (n fuel : nat) (s : jsstring) (cs : list (nat * jsstring)) :
  List.length s < fuel ->
  repeat_matcher (m false n (Cls [AChar 10%N])) true Some fuel
                 {| rest := s; caps := cs |}
  = Some {| rest := skip_newlines s; caps := cs |}.
Proof.
  revert s; induction fuel as [|fuel IH]; intros s Hlen; [lia |].
  cbn [repeat_matcher]. rewrite m_newline. cbn [rest].
  destruct s as [|c s]; [reflexivity |].
  cbn [skip_newlines]. destruct (is_newline c); [| reflexivity].
  unfold goto; cbn [rest caps].
  replace (List.length s <? List.length (c :: s)) with true
    by (symmetry; apply Nat.ltb_lt; simpl; lia).
  rewrite IH by (simpl in Hlen; lia). reflexivity.
Qed.

(** [/\n+/] at one index: it matches iff a newline is there, and then up
    to the end of the run of newlines. *)
Lemma match_at_newlines (q : nat) (s : jsstring) :
  match_at re_newlines q s =
  match s with
  | c :: s' =>
      if is_newline c
      then Some {| index := q;
                   whole := firstn (List.length s - List.length (skip_newlines s')) s;
                   groups := []; after := skip_newlines s' |}
      else None
  | [] => None
  end.
Proof.
  unfold match_at, re_newlines, Plus. cbn [ignoreCase pattern].
  change (m false ?n (Seq ?a ?b) ?x ?k) with (m false n a x (fun y => m false n b y k)).
  rewrite m_newline. cbn [rest].
  destruct s as [|c s']; [reflexivity |].
  destruct (is_newline c); [| reflexivity].
  change (m false ?n (Star true ?a) ?x ?k)
    with (repeat_matcher (m false n a) true k (S (List.length (rest x))) x).
  unfold goto; cbn [rest caps].
  rewrite repeat_newlines by lia. reflexivity.
Qed.

(** ** [split(/\n+/)] followed by a filter that refuses the empty chunk *)

Lemma split_lines_skip (P : jsstring -> bool) (s : jsstring) :
  P [] = false ->
  filter P (split_lines [] (skip_newlines s)) = filter P (split_lines [] s).
Proof.
  intros HP. induction s as [|c s IH]; [reflexivity |].
  cbn [skip_newlines split_lines]. destruct (is_newline c) eqn:Hc.
  - cbn [rev filter]. rewrite HP. exact IH.
  - cbn [split_lines]. rewrite Hc. reflexivity.
Qed.

Lemma split_from_newlines (P : jsstring -> bool) (HP : P [] = false)
      (fuel : nat) (cur : jsstring) (q : nat) (s : jsstring) :
  List.length s < fuel ->
  filter P (split_from re_newlines fuel cur q s) = filter P (split_lines cur s).
Proof.
  revert cur q s; induction fuel as [|fuel IH]; intros cur q s Hlen; [lia |].
  destruct s as [|c s']; [reflexivity |].
  cbn [split_from split_lines]. rewrite match_at_newlines.
  simpl in Hlen.
  destruct (is_newline c) eqn:Hc.
  - cbn [whole after].
    pose proof (skip_newlines_length s') as Hskip.
    replace (Nat.eqb _ (q - List.length cur)) with false.
    + cbn [filter]. rewrite IH by lia. rewrite split_lines_skip by exact HP.
      reflexivity.
    + symmetry. apply Nat.eqb_neq. rewrite length_firstn. simpl List.length. lia.
  - apply IH; lia.
Qed.

Lemma split_newlines_filter (P : jsstring -> bool) (s : jsstring) :
  P [] = false ->
  filter P (split re_newlines s) = filter P (split_lines [] s).
Proof.
  intros HP. destruct s as [|c s'].
  - unfold split. rewrite match_at_newlines. reflexivity.
  - unfold split. apply split_from_newlines; [exact HP | simpl; lia].
Qed.

Lemma split_lines_app (cur a b : jsstring) :
  split_lines cur (a ++ 10%N :: b) = split_lines cur a ++ split_lines [] b.
Proof.
  revert cur; induction a as [|c a IH]; intros cur; [reflexivity |].
  cbn [app split_lines]. destruct (is_newline c).
  - rewrite IH. reflexivity.
  - apply IH.
Qed.

Lemma split_lines_newline_free (cur chunk : jsstring) :
  newline_free chunk = true -> split_lines cur chunk = [rev cur ++ chunk].
Proof.
  unfold newline_free.
  revert cur; induction chunk as [|c chunk IH]; intros cur Hfree.
  - simpl. rewrite app_nil_r. reflexivity.
  - cbn [forallb] in Hfree. apply andb_true_iff in Hfree as [Hc Hfree].
    apply negb_true_iff in Hc.
    cbn [split_lines]. rewrite Hc, IH by exact Hfree.
    simpl. rewrite <- app_assoc. reflexivity.
Qed.

Lemma split_lines_count (cur s : jsstring) :
  List.length (split_lines cur s) <= S (List.length s).
Proof.
  revert cur; induction s as [|c s IH]; intros cur; simpl; [lia |].
  destruct (is_newline c); simpl.
  - specialize (IH []); lia.
  - specialize (IH (c :: cur)); lia.
Qed.

End PatternFacts.

(* ================================================================== *)
(** * Properties of the classifier *)
(* ================================================================== *)

Section ClassifierFacts.
Import Classifier Chunks.

Lemma long_enough_empty : long_enough [] = false.
Proof. reflexivity. Qed.

(** The chunks that pass the filter of line 70. *)
Lemma chunks_of_lines (text : jsstring) :
  chunks_of text = filter long_enough (split_lines [] text).
Proof. apply split_newlines_filter, long_enough_empty. Qed.

Lemma chunks_of_app (a b : jsstring) :
  chunks_of (a ++ 10%N :: b) = chunks_of a ++ chunks_of b.
Proof. rewrite !chunks_of_lines, split_lines_app, filter_app. reflexivity. Qed.

Lemma chunks_of_short (chunk : jsstring) :
  newline_free chunk = true -> List.length (trim chunk) <= 5 ->
  chunks_of chunk = [].
Proof.
  intros Hfree Hshort. rewrite chunks_of_lines, split_lines_newline_free by exact Hfree.
  cbn [rev app filter]. unfold long_enough.
  replace (5 <? List.length (trim chunk)) with false; [reflexivity |].
  symmetry; apply Nat.ltb_ge; exact Hshort.
Qed.

Lemma chunks_of_count (text : jsstring) :
  List.length (chunks_of text) <= S (List.length text).
Proof.
  rewrite chunks_of_lines.
  pose proof (filter_length_le long_enough (split_lines [] text)).
  pose proof (split_lines_count [] text). lia.
Qed.

(** The loop pushes, chunk after chunk, what each chunk emits. *)
Lemma fold_loop_body (chunks : list jsstring) (lines : list jsstring) :
  fold_left loop_body chunks lines = lines ++ flat_map emitted chunks.
Proof.
  revert lines; induction chunks as [|c chunks IH]; intros lines; simpl.
  - rewrite app_nil_r; reflexivity.
  - rewrite IH. unfold loop_body, emitted.
    destruct (role_of (normalize c)); [rewrite <- app_assoc |]; reflexivity.
Qed.

Lemma parsed_lines_chunks (text : jsstring) :
  parsed_lines text = flat_map emitted (chunks_of text).
Proof. unfold parsed_lines. apply fold_loop_body. Qed.

Lemma parsed_lines_app (a b : jsstring) :
  parsed_lines (a ++ 10%N :: b) = parsed_lines a ++ parsed_lines b.
Proof. rewrite !parsed_lines_chunks, chunks_of_app, flat_map_app. reflexivity. Qed.

Lemma emitted_length (chunk : jsstring) : List.length (emitted chunk) <= 1.
Proof. unfold emitted. destruct (role_of (normalize chunk)); simpl; lia. Qed.

Lemma flat_map_emitted_length (chunks : list jsstring) :
  List.length (flat_map emitted chunks) <= List.length chunks.
Proof.
  induction chunks as [|c chunks IH]; simpl; [lia |].
  rewrite length_app. pose proof (emitted_length c). lia.
Qed.

Lemma parseQuizText_lines (text : jsstring) (w : console) :
  fst (parseQuizText text w) = parsed_lines text.
Proof. reflexivity. Qed.

(** ** Lines read back as fragments *)

Lemma fragment_of_template (r : role) (t : jsstring) :
  fragment_of (template r t) = Some (r, t).
Proof. destruct r; reflexivity. Qed.

Lemma fragments_of_lines_app (l1 l2 : list jsstring) :
  fragments_of_lines (l1 ++ l2) = fragments_of_lines l1 ++ fragments_of_lines l2.
Proof.
  induction l1 as [|l l1 IH]; simpl; [reflexivity |].
  destruct (fragment_of l); simpl; rewrite IH; reflexivity.
Qed.

Lemma fragments_of_emitted (chunk : jsstring) :
  fragments_of_lines (emitted chunk) = emitted_fragment chunk.
Proof.
  unfold emitted, emitted_fragment.
  destruct (role_of (normalize chunk)) as [r|]; [| reflexivity].
  cbn [fragments_of_lines]. rewrite fragment_of_template. reflexivity.
Qed.

Lemma classify_chunks (text : jsstring) :
  classify text = flat_map emitted_fragment (chunks_of text).
Proof.
  unfold classify. rewrite parsed_lines_chunks.
  induction (chunks_of text) as [|c l IH]; [reflexivity |].
  cbn [flat_map]. rewrite fragments_of_lines_app, fragments_of_emitted, IH.
  reflexivity.
Qed.

(** ** The lines are never blank *)

Lemma trimStart_keeps (s : jsstring) (c : cu) :
  In c s -> is_ws c = false -> trimStart s <> [].
Proof.
  induction s as [|a s IH]; [contradiction |].
  intros [-> | Hin] Hc; cbn [trimStart].
  - rewrite Hc. discriminate.
  - destruct (is_ws a); [apply IH; assumption | discriminate].
Qed.

Lemma trimStart_In (s : jsstring) (c : cu) :
  In c s -> is_ws c = false -> In c (trimStart s).
Proof.
  induction s as [|a s IH]; [contradiction |].
  intros Hin Hc; cbn [trimStart]. destruct (is_ws a) eqn:Ha; [| exact Hin].
  destruct Hin as [-> | Hin]; [congruence | apply IH; assumption].
Qed.

Lemma trim_keeps (s : jsstring) (c : cu) :
  In c s -> is_ws c = false -> trim s <> [].
Proof.
  intros Hin Hc. unfold trim, trimEnd. intros He.
  apply (f_equal (@rev cu)) in He. rewrite rev_involutive in He. cbn [rev] in He.
  revert He. apply trimStart_keeps with (c := c); [| exact Hc].
  apply in_rev. rewrite rev_involutive. apply trimStart_In; assumption.
Qed.

(** A line of the classifier starts with its emoji: dropped on the
    builder, it is never a blank text. *)
Lemma template_not_blank (r : role) (t : jsstring) : trim (template r t) <> [].
Proof.
  destruct r; cbn [template tag].
  - apply trim_keeps with (c := 10067%N); [left |]; reflexivity.
  - apply trim_keeps with (c := 55357%N); [left |]; reflexivity.
  - apply trim_keeps with (c := 9989%N); [left |]; reflexivity.
  - apply trim_keeps with (c := 55357%N); [left |]; reflexivity.
  - apply trim_keeps with (c := 55357%N); [left |]; reflexivity.
Qed.

Lemma parsed_lines_not_blank (text line : jsstring) :
  In line (parsed_lines text) -> trim line <> [].
Proof.
  rewrite parsed_lines_chunks. intros H.
  apply in_flat_map in H as (chunk & _ & H). unfold emitted in H.
  destruct (role_of (normalize chunk)); [| contradiction].
  destruct H as [<- | []]. apply template_not_blank.
Qed.

(** ** Short chunks, totality, determinism *)

(** C10: a chunk of five code units or fewer once trimmed gives no line,
    alone or between other chunks, at the start or at the end of the text:
    the text classifies as if the chunk were not there.  Nothing is asked
    of the chunk but its length, so this holds of the chunks that match
    the patterns of a question, an option, an answer or an explanation. *)
Theorem short_chunk_dropped (before chunk after_ : jsstring) (w : console)
    (Hfree : newline_free chunk = true)
    (Hshort : List.length (trim chunk) <= 5) :
  fst (parseQuizText chunk w) = [] /\
  fst (parseQuizText (before ++ 10%N :: chunk ++ 10%N :: after_) w)
  = fst (parseQuizText (before ++ 10%N :: after_) w) /\
  fst (parseQuizText (chunk ++ 10%N :: after_) w) = fst (parseQuizText after_ w) /\
  fst (parseQuizText (before ++ 10%N :: chunk) w) = fst (parseQuizText before w).
Proof.
  rewrite !parseQuizText_lines.
  assert (Hnone : parsed_lines chunk = []).
  { rewrite parsed_lines_chunks, chunks_of_short by assumption. reflexivity. }
  repeat split.
  - exact Hnone.
  - rewrite !parsed_lines_app, Hnone. reflexivity.
  - rewrite parsed_lines_app, Hnone. reflexivity.
  - rewrite parsed_lines_app, Hnone, app_nil_r. reflexivity.
Qed.

Lemma short_chunk_dropped_witness :
  (role_of (normalize Scenario.short_question) = Some Question /\
   fst (parseQuizText Scenario.short_question []) = []) /\
  (role_of (normalize Scenario.short_answer) = Some Answer /\
   fst (parseQuizText (Scenario.option_page ++ 10%N :: Scenario.short_answer) [])
   = fst (parseQuizText Scenario.option_page [])).
Proof.
  split; (split; [vm_compute; reflexivity |]).
  - apply (@short_chunk_dropped [] Scenario.short_question [] []).
    + vm_compute; reflexivity.
    + vm_compute; lia.
  - apply (@short_chunk_dropped Scenario.option_page Scenario.short_answer [] []).
    + vm_compute; reflexivity.
    + vm_compute; lia.
Defined.

(** C8: [parseQuizText] returns on every text, with at most one line per
    chunk kept and so at most one more line than the text has code units;
    on the empty text it returns no line. *)
Theorem parseQuizText_total (text : jsstring) (w : console) :
  (exists lines w',
      parseQuizText text w = (lines, w') /\
      List.length lines <= List.length (chunks_of text) /\
      List.length lines <= S (List.length text)) /\
  fst (parseQuizText [] w) = [] /\
  classify [] = [].
Proof.
  split; [| split; reflexivity].
  exists (parsed_lines text), (snd (parseQuizText text w)).
  split; [reflexivity |].
  assert (H : List.length (parsed_lines text) <= List.length (chunks_of text)).
  { rewrite parsed_lines_chunks. apply flat_map_emitted_length. }
  split; [exact H |]. pose proof (chunks_of_count text). lia.
Qed.

(** C7: the lines [parseQuizText] returns, and so the roles, the texts
    and the order of the fragments, depend on the text alone: whatever
    the console holds when it runs, the same text gives the same
    sequence, also on a second call right after the first, and the
    console is only added one entry to. *)
Theorem parseQuizText_deterministic (text : jsstring) (w1 w2 : console) :
  fst (parseQuizText text w1) = fst (parseQuizText text w2) /\
  fragments_of_lines (fst (parseQuizText text w1))
  = fragments_of_lines (fst (parseQuizText text w2)) /\
  fst (parseQuizText text (snd (parseQuizText text w1)))
  = fst (parseQuizText text w1) /\
  fst (parseQuizText text w1) = flat_map emitted (chunks_of text) /\
  (exists entry, snd (parseQuizText text w1) = w1 ++ [entry] /\
                 snd (parseQuizText text w2) = w2 ++ [entry]).
Proof.
  rewrite !parseQuizText_lines. repeat split.
  - apply parsed_lines_chunks.
  - eexists; split; reflexivity.
Qed.

(** An Option fragment of the current classifier is a whole chunk that
    the option pattern, and not the question pattern, recognises. *)
Lemma current_option_text (text t : jsstring) :
  In (Option_, t) (classify text) ->
  exists chunk,
    In chunk (chunks_of text) /\
    t = normalize chunk /\
    test re_option t = true /\
    test re_question t = false.
Proof.
  intros H.
  rewrite classify_chunks in H. apply in_flat_map in H as (chunk & Hin & Hem).
  exists chunk; split; [exact Hin |].
  unfold emitted_fragment in Hem.
  destruct (role_of (normalize chunk)) as [r|] eqn:Hr; [| contradiction].
  destruct Hem as [Hem | []]. inversion Hem; subst r t; clear Hem.
  split; [reflexivity |]. unfold role_of in Hr.
  destruct (test re_question (normalize chunk)); [discriminate |].
  destruct (test re_option (normalize chunk)); [split; reflexivity |].
  destruct (test re_answer (normalize chunk)); [discriminate |].
  destruct (test re_explanation (normalize chunk)); [discriminate |].
  destruct (_ && _); discriminate.
Qed.

End ClassifierFacts.

(* ================================================================== *)
(** * The worked example *)
(* ================================================================== *)

Section WorkedExample.
Import Builder Scenario.

(** C9, as the source has it: the pattern-anchored classifier reads the
    example as six lines, a question, four options that keep their letter
    and an answer that keeps its label; the current classifier, which
    cuts at newlines only, reads it as one question line; dragging the
    question line and the four option lines of the pattern-anchored
    classifier onto their zones hands each line whole to the builder, and
    with answer B picked the draft can be committed, which appends the
    record numbered 1 whose question text and options are those lines,
    markers included, and opens draft 2. *)
Theorem worked_example :
  Anchored.parseQuizText quiz_text = quiz_lines_anchored /\
  Anchored.classify quiz_text
  = [(Question, utf16 "What is 2+2?");
     (Option_, utf16 "(a) 3"); (Option_, utf16 "(b) 4");
     (Option_, utf16 "(c) 5"); (Option_, utf16 "(d) 6");
     (Answer, utf16 "Answer: b")] /\
  (forall w, fst (Classifier.parseQuizText quiz_text w) = quiz_lines_current) /\
  Classifier.classify quiz_text
  = [(Question, utf16 "1. What is 2+2? • (a) 3 • (b) 4 • (c) 5 • (d) 6 Answer: b")] /\
  drag_actions (Anchored.parseQuizText quiz_text)
  = [DropQuestion (utf16 "❓ What is 2+2?");
     DropOption A (utf16 "🔘 (a) 3"); DropOption B (utf16 "🔘 (b) 4");
     DropOption C (utf16 "🔘 (c) 5"); DropOption D (utf16 "🔘 (d) 6");
     SelectAnswer B] /\
  canCommit (currentQuestion dragged) = true /\
  fst (fire addQuestion dragged) = Normal tt /\
  questionsArray (snd (fire addQuestion dragged)) = [quiz_record_dragged] /\
  questionNumber (currentQuestion (snd (fire addQuestion dragged))) = 2.
Proof.
  repeat split; try intros w; vm_compute; reflexivity.
Qed.

(** C9 as claimed fails: neither classifier gives the six fragments
    "What is 2+2?", "3", "4", "5", "6", "b" for the example, and the
    record committed from the lines of the example is not the one with
    the question text "What is 2+2?" and the options "3", "4", "5", "6". *)
Lemma worked_example_differs :
  Classifier.classify quiz_text <> quiz_fragments_claimed /\
  Anchored.classify quiz_text <> quiz_fragments_claimed /\
  questionsArray (snd (fire addQuestion dragged)) <> [quiz_record].
Proof.
  repeat split; vm_compute; intros H; discriminate H.
Qed.

End WorkedExample.

(* ================================================================== *)
(** * Properties of the pattern-anchored classifier *)
(* ================================================================== *)

Section AnchoredFacts.
Import Classifier Anchored.

(** Group 1 of the option pattern is one letter, a to d. *)
Lemma re_option_letter (i : nat) (s : jsstring) (r : match_result) :
  match_at re_option i s = Some r ->
  exists c, (97 <= c)%N /\ (c <= 100)%N /\ group 1 r = [c].
Proof.
  intros H. apply match_at_ends in H as (y & Hy & Hg & _).
  unfold group. rewrite Hg. clear Hg r.
  cbn [re_option ignoreCase pattern seq fold_right] in Hy.
  apply ends_seq in Hy as (x1 & H1 & Hy). apply ends_group_free in H1; [| reflexivity].
  apply ends_seq in Hy as (x2 & H2 & Hy). apply ends_group_free in H2; [| reflexivity].
  apply ends_seq in Hy as (x3 & H3 & Hy). apply ends_group_free in H3; [| reflexivity].
  apply ends_seq in Hy as (x4 & H4 & Hy).
  apply ends_group in H4 as (y4 & H4 & ->).
  apply ends_cls in H4 as (c & s' & Hx3 & Hc & ->).
  apply ends_seq in Hy as (x5 & H5 & Hy). apply ends_group_free in H5; [| reflexivity].
  apply ends_seq in Hy as (x6 & H6 & Hy). apply ends_group_free in H6; [| reflexivity].
  apply ends_seq in Hy as (x7 & H7 & Hy).
  apply ends_group in H7 as (y7 & H7 & ->). apply ends_group_free in H7; [| reflexivity].
  apply ends_seq in Hy as (x8 & H8 & Hy).
  apply ends_look in H8 as (y8 & H8 & ->). apply ends_group_free in H8; [| reflexivity].
  apply ends_eps in Hy. subst y. cbn [caps set_cap goto rest] in *.
  rewrite H8, H7, H6, H5. cbn [lookup_cap Nat.eqb].
  exists c. rewrite Hx3. cbn [goto rest List.length].
  replace (S (List.length s') - List.length s') with 1 by lia.
  cbn [firstn]. cbn [existsb atom_match andb orb] in Hc.
  rewrite !orb_false_r in Hc. apply andb_true_iff in Hc as [Hlo Hhi].
  change (ch "a") with 97%N in Hlo. change (ch "d") with 100%N in Hhi.
  apply N.leb_le in Hlo. apply N.leb_le in Hhi. repeat split; assumption.
Qed.

Lemma push_if_lines (t l : jsstring) (lines : list jsstring) :
  Forall pushed_line lines -> (t <> [] -> pushed_line l) ->
  Forall pushed_line (push_if t l lines).
Proof.
  intros Hlines Hl. unfold push_if. destruct t as [|c t]; cbn [truthy]; [exact Hlines |].
  apply Forall_app; split; [exact Hlines |].
  constructor; [apply Hl; discriminate | constructor].
Qed.

Lemma option_body_lines (ms : list match_result) (st : list jsstring * jsstring) :
  (forall r, In r ms -> exists i s, match_at re_option i s = Some r) ->
  Forall pushed_line (fst st) ->
  Forall pushed_line (fst (fold_left option_body ms st)).
Proof.
  revert st; induction ms as [|r ms IH]; intros [lines remaining] Hms Hst;
    [exact Hst |].
  cbn [fold_left]. apply IH; [intros r' Hr'; apply Hms; right; exact Hr' |].
  cbn [option_body fst]. apply push_if_lines; [exact Hst |].
  intros Hne. destruct (Hms r (or_introl eq_refl)) as (i & s & Hm).
  apply re_option_letter in Hm as (c & Hlo & Hhi & ->).
  constructor; assumption.
Qed.

Lemma block_body_lines (lines : list jsstring) (block : jsstring) :
  Forall pushed_line lines -> Forall pushed_line (block_body lines block).
Proof.
  intros Hlines. unfold block_body.
  set (st := match exec re_question (trim block) with
             | Some q => _ | None => _ end).
  assert (Hst : Forall pushed_line (fst st)).
  { subst st. destruct (exec re_question (trim block)); cbn [fst]; [| exact Hlines].
    apply push_if_lines; [exact Hlines | intros _; constructor]. }
  pose proof (@option_body_lines (matchAll re_option (snd st)) st
                (fun r => @matchAll_match_at re_option (snd st) r) Hst) as Hfold.
  destruct (fold_left option_body (matchAll re_option (snd st)) st)
    as [lines' remaining'].
  cbn [fst] in Hfold.
  destruct (exec re_answer remaining'); [| exact Hfold].
  apply push_if_lines; [exact Hfold | intros _; constructor].
Qed.

(** Every line of the pattern-anchored classifier has one of the three
    shapes. *)
Lemma parseQuizText_lines_shape (text : jsstring) :
  Forall pushed_line (Anchored.parseQuizText text).
Proof.
  unfold Anchored.parseQuizText.
  assert (H : forall blocks lines,
             Forall pushed_line lines ->
             Forall pushed_line (fold_left block_body blocks lines)).
  { induction blocks as [|b blocks IH]; intros lines Hl; [exact Hl |].
    apply IH, block_body_lines, Hl. }
  apply H. constructor.
Qed.

Lemma fragments_of_lines_In (lines : list jsstring) (f : fragment) :
  In f (fragments_of_lines lines) ->
  exists line, In line lines /\ fragment_of line = Some f.
Proof.
  induction lines as [|l lines IH]; [contradiction |].
  cbn [fragments_of_lines].
  destruct (fragment_of l) as [f'|] eqn:Hl.
  - intros [<- | H].
    + exists l; split; [left; reflexivity | exact Hl].
    + destruct (IH H) as (line & Hin & Hf). exists line; split; [right |]; assumption.
  - intros H. destruct (IH H) as (line & Hin & Hf).
    exists line; split; [right |]; assumption.
Qed.

(** An Option fragment of the pattern-anchored classifier: the bullet is
    gone, the letter is there, in parentheses, before the text. *)
Lemma anchored_option_text (text t : jsstring) :
  In (Option_, t) (Anchored.classify text) ->
  exists c body,
    t = utf16 "(" ++ [c] ++ utf16 ") " ++ body /\
    (97 <= c)%N /\ (c <= 100)%N /\ body <> [].
Proof.
  intros H. apply fragments_of_lines_In in H as (line & Hin & Hf).
  pose proof (parseQuizText_lines_shape text) as Hall.
  rewrite Forall_forall in Hall. specialize (Hall line Hin).
  destruct Hall as [q | c body Hlo Hhi Hne | a].
  - discriminate Hf.
  - inversion Hf; subst t. exists c, body. repeat split; assumption.
  - discriminate Hf.
Qed.

End AnchoredFacts.

(* ================================================================== *)
(** * What an Option fragment carries *)
(* ================================================================== *)

Section OptionFragments.
Import Classifier Chunks.

(** C2, as the source has it.  An Option fragment of the current
    classifier carries the whole chunk, white space normalised, and that
    text still starts with the option marker (bullet, bracket and letter)
    it was recognised by.  An Option fragment of the pattern-anchored
    classifier has lost the bullet and carries the letter, a to d, in
    parentheses before a non-empty text. *)
Theorem option_keeps_marker (text t : jsstring) :
  (In (Option_, t) (Classifier.classify text) ->
   exists chunk,
     In chunk (chunks_of text) /\
     t = normalize chunk /\
     test re_option t = true /\
     test re_question t = false) /\
  (In (Option_, t) (Anchored.classify text) ->
   exists c body,
     t = utf16 "(" ++ [c] ++ utf16 ") " ++ body /\
     (97 <= c)%N /\ (c <= 100)%N /\ body <> []).
Proof.
  split; [apply current_option_text | apply anchored_option_text].
Qed.

Lemma option_keeps_marker_witness :
  (In (Option_, utf16 "• (a) three") (Classifier.classify Scenario.option_page) /\
   exists chunk,
     In chunk (chunks_of Scenario.option_page) /\
     utf16 "• (a) three" = normalize chunk /\
     test re_option (utf16 "• (a) three") = true /\
     test re_question (utf16 "• (a) three") = false) /\
  (In (Option_, utf16 "(a) 3") (Anchored.classify Scenario.quiz_text) /\
   exists c body,
     utf16 "(a) 3" = utf16 "(" ++ [c] ++ utf16 ") " ++ body /\
     (97 <= c)%N /\ (c <= 100)%N /\ body <> []).
Proof.
  split; split.
  - vm_compute; left; reflexivity.
  - apply (proj1 (option_keeps_marker Scenario.option_page (utf16 "• (a) three"))).
    vm_compute; left; reflexivity.
  - vm_compute; right; left; reflexivity.
  - apply (proj2 (option_keeps_marker Scenario.quiz_text (utf16 "(a) 3"))).
    vm_compute; right; left; reflexivity.
Defined.

(** C2 as claimed fails: the Option fragment of the page "• (a) three"
    has the text "• (a) three", marker and letter included; the
    pattern-anchored classifier drops the bullet of an option and keeps
    its letter, as "(a) 3". *)
Lemma option_text_has_marker :
  Classifier.classify Scenario.option_page = [(Option_, utf16 "• (a) three")] /\
  starts_with (utf16 "• (a)") (utf16 "• (a) three") = true /\
  In (Option_, utf16 "(a) 3") (Anchored.classify Scenario.quiz_text).
Proof.
  split; [vm_compute; reflexivity |].
  split; [vm_compute; reflexivity |].
  vm_compute. right; left; reflexivity.
Qed.

End OptionFragments.

(* ================================================================== *)
(** * More on the question builder *)
(* ================================================================== *)

Section BuilderRuns.
Import Builder.

(** A property of the initial state that every action keeps holds along
    every run. *)
Lemma run_invariant (P : state -> Prop) :
  (forall s a, P s -> P (step s a)) ->
  forall l s, P s -> P (run s l).
Proof.
  intros Hstep l; induction l as [|a l IH]; intros s Hs; [exact Hs |].
  apply IH, Hstep, Hs.
Qed.

Lemma step_addQuestion (s : state) :
  step s ClickAdd =
  if canCommit (currentQuestion s)
  then {| currentQuestion :=
            {| questionNumber := List.length (questionsArray s) + 2;
               questionText := []; question_images := [];
               option_with_images_ := [[]; []; []; []];
               correct_answer := utf16 "A" |};
          questionsArray := questionsArray s ++ [currentQuestion s] |}
  else s.
Proof.
  cbn [step]. unfold fire, addQuestion, with_props.
  destruct (canCommit (currentQuestion s)); reflexivity.
Qed.

Lemma step_keeps_committed (s : state) (a : action) :
  a <> ClickAdd -> questionsArray (step s a) = questionsArray s.
Proof. destruct a; intros Ha; try reflexivity. contradiction. Qed.

Lemma step_keeps_number (s : state) (a : action) :
  a <> ClickAdd ->
  questionNumber (currentQuestion (step s a)) = questionNumber (currentQuestion s).
Proof. destruct a; intros Ha; try reflexivity. contradiction. Qed.

(** X1: along every run from the initial state the committed questions
    are numbered 1, 2, ..., N in order, without repetition, the draft is
    numbered N + 1, and the records [exportJSON] hands over are numbered
    from 1 up to their count. *)
Theorem question_numbers_consecutive (l : list action) :
  let s := run initial l in
  map questionNumber (questionsArray s) = List.seq 1 (List.length (questionsArray s)) /\
  questionNumber (currentQuestion s) = List.length (questionsArray s) + 1 /\
  NoDup (map questionNumber (questionsArray s)) /\
  forall d, fst (fire exportJSON s) = Normal d ->
            map questionNumber (finalArray d) = List.seq 1 (List.length (finalArray d)).
Proof.
  cbv zeta.
  assert (Hinv : map questionNumber (questionsArray (run initial l))
                 = List.seq 1 (List.length (questionsArray (run initial l))) /\
                 questionNumber (currentQuestion (run initial l))
                 = List.length (questionsArray (run initial l)) + 1).
  { apply (@run_invariant
             (fun s => map questionNumber (questionsArray s)
                       = List.seq 1 (List.length (questionsArray s)) /\
                       questionNumber (currentQuestion s)
                       = List.length (questionsArray s) + 1));
      [| split; reflexivity].
    intros s a [Hq Hd]. destruct a as [text | lt text | lt | | ];
      try (split; assumption).
    rewrite step_addQuestion. destruct (canCommit (currentQuestion s));
      [| split; assumption].
    cbn [questionsArray currentQuestion questionNumber].
    rewrite map_app, length_app, Hq. cbn [map List.length]. rewrite Hd.
    rewrite Nat.add_1_r, seq_S. split; [reflexivity | lia]. }
  destruct Hinv as [Hq Hd]. repeat split; try assumption.
  - rewrite Hq. apply seq_NoDup.
  - intros d Hfire. rewrite exportJSON_fire in Hfire. cbn [fst] in Hfire.
    inversion Hfire; subst d; clear Hfire. cbn [finalArray].
    destruct (canCommit (currentQuestion (run initial l))).
    + rewrite map_app, length_app, Hq. cbn [map List.length]. rewrite Hd.
      rewrite Nat.add_1_r, seq_S. reflexivity.
    + rewrite app_nil_r. exact Hq.
Qed.

(** X2: every committed question passed the check when it was added, and
    so does every record [exportJSON] hands over: its text is not empty
    and none of its options is blank. *)
Theorem exported_questions_valid (l : list action) :
  let s := run initial l in
  Forall (fun q => canCommit q = true) (questionsArray s) /\
  forall d, fst (fire exportJSON s) = Normal d ->
            Forall (fun q => questionText q <> [] /\
                             forall opt, In opt (option_with_images_ q) ->
                                         trim opt <> [])
                   (finalArray d).
Proof.
  cbv zeta.
  assert (Hinv : Forall (fun q => canCommit q = true)
                        (questionsArray (run initial l))).
  { apply (@run_invariant
             (fun s => Forall (fun q => canCommit q = true) (questionsArray s)));
      [| constructor].
    intros s a Hs. destruct a as [text | lt text | lt | | ]; try exact Hs.
    rewrite step_addQuestion. destruct (canCommit (currentQuestion s)) eqn:Hc;
      [| exact Hs].
    cbn [questionsArray]. apply Forall_app; split; [exact Hs |].
    constructor; [exact Hc | constructor]. }
  split; [exact Hinv |].
  intros d Hfire. rewrite exportJSON_fire in Hfire. cbn [fst] in Hfire.
  inversion Hfire; subst d; clear Hfire. cbn [finalArray].
  apply Forall_app; split.
  - eapply Forall_impl; [| exact Hinv]. intros q Hq. apply canCommit_spec, Hq.
  - destruct (canCommit (currentQuestion (run initial l))) eqn:Hc; constructor;
      [apply canCommit_spec, Hc | constructor].
Qed.

(** X3: a committed question stays where it is: whatever is done next,
    the committed list keeps its entries, in place, and only grows at the
    end. *)
Theorem committed_questions_kept (s : state) (l : list action) :
  firstn (List.length (questionsArray s)) (questionsArray (run s l))
  = questionsArray s /\
  List.length (questionsArray s) <= List.length (questionsArray (run s l)) /\
  forall i q, nth_error (questionsArray s) i = Some q ->
              nth_error (questionsArray (run s l)) i = Some q.
Proof.
  rewrite run_committed. repeat split.
  - rewrite firstn_app, Nat.sub_diag, firstn_all. simpl. apply app_nil_r.
  - rewrite length_app; lia.
  - intros i q Hi. rewrite nth_error_app1; [exact Hi |].
    apply nth_error_Some. congruence.
Qed.

(** X4: right after "Add Question" the draft cannot be committed, so a
    second press, as in a double click, changes nothing. *)
Theorem addQuestion_twice (s : state) :
  canCommit (currentQuestion (step s ClickAdd)) = false /\
  step (step s ClickAdd) ClickAdd = step s ClickAdd.
Proof.
  assert (H : canCommit (currentQuestion (step s ClickAdd)) = false).
  { rewrite step_addQuestion.
    destruct (canCommit (currentQuestion s)) eqn:Hc; [reflexivity | exact Hc]. }
  split; [exact H |].
  rewrite (step_addQuestion (step s ClickAdd)), H. reflexivity.
Qed.

(** X5: adding the draft before exporting does not change what is
    exported: a complete draft is exported as the record it would be
    committed as. *)
Theorem export_after_add (s : state) :
  fst (fire exportJSON (step s ClickAdd)) = fst (fire exportJSON s).
Proof.
  rewrite !exportJSON_fire. cbn [fst]. do 2 f_equal.
  destruct (addQuestion_twice s) as [Hno _]. rewrite Hno.
  rewrite step_addQuestion. destruct (canCommit (currentQuestion s));
    cbn [questionsArray]; rewrite app_nil_r; reflexivity.
Qed.

Lemma assign_twice (arr : list jsstring) (i : nat) (v1 v2 : jsstring) :
  assign (assign arr i v1) i v2 = assign arr i v2.
Proof.
  revert i; induction arr as [|x arr IH]; intros [|i]; simpl; try reflexivity.
  rewrite IH; reflexivity.
Qed.

Lemma assign_swap (arr : list jsstring) (i j : nat) (v1 v2 : jsstring) :
  i <> j -> assign (assign arr i v1) j v2 = assign (assign arr j v2) i v1.
Proof.
  revert i j; induction arr as [|x arr IH]; intros [|i] [|j] Hij; simpl;
    try reflexivity; try congruence.
  rewrite IH by congruence; reflexivity.
Qed.

(** X6: how the drops compose.  A later drop on a zone replaces the
    earlier one; drops on different option zones, on the question zone
    and the choice of the answer can be made in any order; and none of
    them touches the committed list or the number of the draft. *)
Theorem drops_compose (s : state) (l l' : letter) (t1 t2 : jsstring) :
  step (step s (DropOption l t1)) (DropOption l t2) = step s (DropOption l t2) /\
  step (step s (DropQuestion t1)) (DropQuestion t2) = step s (DropQuestion t2) /\
  (l <> l' ->
   step (step s (DropOption l t1)) (DropOption l' t2)
   = step (step s (DropOption l' t2)) (DropOption l t1)) /\
  step (step s (DropQuestion t1)) (DropOption l t2)
  = step (step s (DropOption l t2)) (DropQuestion t1) /\
  step (step s (SelectAnswer l')) (DropOption l t2)
  = step (step s (DropOption l t2)) (SelectAnswer l') /\
  step (step s (SelectAnswer l')) (DropQuestion t1)
  = step (step s (DropQuestion t1)) (SelectAnswer l') /\
  (forall a, a <> ClickAdd ->
             questionsArray (step s a) = questionsArray s /\
             questionNumber (currentQuestion (step s a))
             = questionNumber (currentQuestion s)).
Proof.
  repeat split; try reflexivity.
  - cbn. unfold with_options; cbn. rewrite assign_twice. reflexivity.
  - intros Hl. cbn. unfold with_options; cbn.
    rewrite assign_swap; [reflexivity |]. destruct l, l'; cbn; congruence.
  - apply step_keeps_committed; assumption.
  - apply step_keeps_number; assumption.
Qed.

Lemma drops_compose_witness :
  A <> B /\
  step (step Scenario.filled (DropOption A (utf16 "x"))) (DropOption B (utf16 "y"))
  = step (step Scenario.filled (DropOption B (utf16 "y"))) (DropOption A (utf16 "x")).
Proof.
  split; [discriminate |].
  apply (proj1 (proj2 (proj2 (@drops_compose Scenario.filled A B
                                 (utf16 "x") (utf16 "y"))))).
  discriminate.
Defined.

(** X7: along every run, the draft and every committed question have
    one of "A", "B", "C", "D" as answer and no image. *)
Theorem answers_and_images (l : list action) :
  let s := run initial l in
  Forall (fun q => question_images q = [] /\
                   exists lt, correct_answer q = value_of lt)
         (currentQuestion s :: questionsArray s).
Proof.
  cbv zeta.
  apply (@run_invariant
           (fun s => Forall (fun q => question_images q = [] /\
                                      exists lt, correct_answer q = value_of lt)
                            (currentQuestion s :: questionsArray s))).
  - intros s a Hs. inversion Hs as [| q qs [Himg Hans] Hqs]; subst.
    destruct a as [text | lt text | lt | | ]; cbn [step].
    + constructor; [split; assumption | exact Hqs].
    + constructor; [split; assumption | exact Hqs].
    + constructor; [split; [exact Himg | exists lt; reflexivity] | exact Hqs].
    + change (snd (fire addQuestion s)) with (step s ClickAdd).
      rewrite step_addQuestion. destruct (canCommit (currentQuestion s));
        [| exact Hs].
      cbn [currentQuestion questionsArray]. constructor.
      * split; [reflexivity | exists A; reflexivity].
      * apply Forall_app; split; [exact Hqs |].
        constructor; [split; assumption | constructor].
    + exact Hs.
  - constructor; [split; [reflexivity | exists A; reflexivity] | constructor].
Qed.

End BuilderRuns.

(* ================================================================== *)
(** * The normalisation of a chunk *)
(* ================================================================== *)

Section Normalisation.
Import Classifier Spaces.

Lemma trimStart_length (s : jsstring) :
  List.length (trimStart s) <= List.length s.
Proof.
  induction s as [|c s IH]; simpl; [lia |]. destruct (is_ws c); simpl; lia.
Qed.

Lemma trimStart_skipn (s : jsstring) :
  skipn (List.length s - List.length (trimStart s)) s = trimStart s.
Proof.
  induction s as [|c s IH]; [reflexivity |].
  cbn [trimStart]. destruct (is_ws c).
  - pose proof (trimStart_length s).
    replace (List.length (c :: s) - List.length (trimStart s))
      with (S (List.length s - List.length (trimStart s)))
      by (cbn [List.length]; lia).
    exact IH.
  - rewrite Nat.sub_diag. reflexivity.
Qed.

(** [\s*], greedy, followed by nothing: it eats the white space in
    front. *)
Lemma repeat_spaces (n fuel : nat) (s : jsstring) (cs : list (nat * jsstring)) :
  List.length s < fuel ->
  repeat_matcher (m false n space) true Some fuel {| rest := s; caps := cs |}
  = Some {| rest := trimStart s; caps := cs |}.
Proof.
  revert s; induction fuel as [|fuel IH]; intros s Hlen; [lia |].
  cbn [repeat_matcher]. unfold space at 1. cbn [m rest].
  destruct s as [|c s]; [reflexivity |].
  cbn [existsb atom_match trimStart]. rewrite orb_false_r.
  destruct (is_ws c); [| reflexivity].
  unfold goto; cbn [rest caps].
  replace (List.length s <? List.length (c :: s)) with true
    by (symmetry; apply Nat.ltb_lt; simpl; lia).
  fold space. rewrite IH by (simpl in Hlen; lia). reflexivity.
Qed.

(** [/\s+/] at one index. *)
Lemma match_at_spaces (q : nat) (s : jsstring) :
  match_at re_spaces q s =
  match s with
  | c :: s' =>
      if is_ws c
      then Some {| index := q;
                   whole := c :: firstn (List.length s' - List.length (trimStart s')) s';
                   groups := []; after := trimStart s' |}
      else None
  | [] => None
  end.
Proof.
  unfold match_at, re_spaces, Plus. cbn [ignoreCase pattern].
  change (m false ?n (Seq ?a ?b) ?x ?k) with (m false n a x (fun y => m false n b y k)).
  unfold space at 1. cbn [m rest].
  destruct s as [|c s']; [reflexivity |].
  cbn [existsb atom_match]. rewrite orb_false_r.
  destruct (is_ws c); [| reflexivity].
  change (m false ?n (Star true ?a) ?x ?k)
    with (repeat_matcher (m false n a) true k (S (List.length (rest x))) x).
  unfold goto; cbn [rest caps].
  rewrite repeat_spaces by lia. cbn [rest caps].
  pose proof (trimStart_length s').
  replace (List.length (c :: s') - List.length (trimStart s'))
    with (S (List.length s' - List.length (trimStart s')))
    by (cbn [List.length]; lia).
  reflexivity.
Qed.

Lemma squeeze_run (s : jsstring) : squeeze true s = squeeze false (trimStart s).
Proof.
  induction s as [|c s IH]; [reflexivity |].
  cbn [squeeze trimStart]. destruct (is_ws c) eqn:Hc; [exact IH |].
  cbn [squeeze]. rewrite Hc. reflexivity.
Qed.

(** The first run of white space, as [exec] finds it. *)
Lemma exec_from_spaces (s : jsstring) (i : nat) :
  (exec_from re_spaces i s = None /\ squeeze false s = s) \/
  (exists pre c s',
      s = pre ++ c :: s' /\
      squeeze false s = pre ++ 32%N :: squeeze false (trimStart s') /\
      exec_from re_spaces i s
      = Some {| index := i + List.length pre;
                whole := c :: firstn (List.length s' - List.length (trimStart s')) s';
                groups := []; after := trimStart s' |}).
Proof.
  revert i; induction s as [|c s IH]; intros i.
  - left. split; reflexivity.
  - cbn [exec_from]. rewrite match_at_spaces. cbn [squeeze].
    destruct (is_ws c) eqn:Hc.
    + right. exists [], c, s. rewrite Nat.add_0_r, squeeze_run. auto.
    + destruct (IH (S i)) as [[He Hs] | (pre & d & s' & -> & Hs & He)].
      * left. rewrite He, Hs. auto.
      * right. exists (c :: pre), d, s'. rewrite He, Hs. cbn [List.length app].
        rewrite Nat.add_succ_r. auto.
Qed.

Lemma replace_spaces (fuel : nat) (text : jsstring) :
  forall i s, skipn i text = s -> List.length s < fuel ->
  replace_from (utf16 " ") i text (matchAll_from re_spaces fuel i s)
  = squeeze false s.
Proof.
  induction fuel as [|fuel IH]; intros i s Hs Hlen; [lia |].
  cbn [matchAll_from].
  destruct (exec_from_spaces s i) as [[He Hsq] | (pre & c & s' & Hsplit & Hsq & He)];
    rewrite He.
  - cbn [replace_from]. rewrite Hs, Hsq. reflexivity.
  - cbn [whole after index List.length replace_from].
    pose proof (trimStart_length s') as Hts.
    assert (Hlen' : List.length (trimStart s') < fuel).
    { rewrite Hsplit, length_app in Hlen. cbn [List.length] in Hlen. lia. }
    rewrite Hsq, Hs, Hsplit.
    replace (i + List.length pre - i) with (List.length pre) by lia.
    rewrite firstn_app, Nat.sub_diag, firstn_all. cbn [firstn]. rewrite app_nil_r.
    rewrite length_firstn, Nat.min_l by lia.
    f_equal. change (utf16 " ") with [32%N]. cbn [app]. f_equal.
    apply IH; [| exact Hlen'].
    replace (i + List.length pre + S (List.length s' - List.length (trimStart s')))
      with ((List.length pre + S (List.length s' - List.length (trimStart s'))) + i)
      by lia.
    rewrite <- skipn_skipn, Hs, Hsplit, skipn_app.
    rewrite (skipn_all2 pre) by lia. cbn [app].
    replace (List.length pre + S (List.length s' - List.length (trimStart s'))
             - List.length pre)
      with (S (List.length s' - List.length (trimStart s'))) by lia.
    cbn [skipn]. apply trimStart_skipn.
Qed.

(** [chunk.trim().replace(/\s+/g, ' ')] squeezes the runs of white space
    of the trimmed chunk. *)
Lemma normalize_squeeze (chunk : jsstring) :
  normalize chunk = squeeze false (trim chunk).
Proof.
  unfold normalize, replaceAll, matchAll. apply replace_spaces; [reflexivity | lia].
Qed.

(** ** What [trim] leaves *)

Lemma trimStart_suffix (s : jsstring) : exists pre, s = pre ++ trimStart s.
Proof.
  induction s as [|c s [pre IH]]; [exists []; reflexivity |].
  cbn [trimStart]. destruct (is_ws c).
  - exists (c :: pre). cbn [app]. congruence.
  - exists []. reflexivity.
Qed.

Lemma trimStart_head (s r : jsstring) (c : cu) :
  trimStart s = c :: r -> is_ws c = false.
Proof.
  induction s as [|a s IH]; [discriminate |].
  cbn [trimStart]. destruct (is_ws a) eqn:Ha; [exact IH |].
  intros H; inversion H; subst; exact Ha.
Qed.

Lemma trimStart_fixed (c : cu) (s : jsstring) :
  is_ws c = false -> trimStart (c :: s) = c :: s.
Proof. intros Hc. cbn [trimStart]. rewrite Hc. reflexivity. Qed.

Lemma ends_visible_app (s : jsstring) (d : cu) :
  ends_visible (s ++ [d]) = negb (is_ws d).
Proof.
  induction s as [|c s IH]; [reflexivity |].
  cbn [app ends_visible]. destruct (s ++ [d]) eqn:Hs; [| exact IH].
  destruct s; discriminate.
Qed.

Lemma ends_visible_last (s : jsstring) :
  ends_visible s = true -> exists s0 d, s = s0 ++ [d] /\ is_ws d = false.
Proof.
  induction s as [|c s IH]; [discriminate |].
  cbn [ends_visible]. destruct s as [|c' s'].
  - intros H. exists [], c. split; [reflexivity |]. apply negb_true_iff, H.
  - intros H. destruct (IH H) as (s0 & d & Hs & Hd).
    exists (c :: s0), d. split; [cbn [app]; congruence | exact Hd].
Qed.

Lemma trimEnd_fixed (s : jsstring) : ends_visible s = true -> trimEnd s = s.
Proof.
  intros H. apply ends_visible_last in H as (s0 & d & -> & Hd).
  unfold trimEnd. rewrite rev_app_distr. cbn [rev app].
  rewrite trimStart_fixed by exact Hd.
  cbn [rev]. rewrite rev_involutive. reflexivity.
Qed.

(** A trimmed text is empty, or starts and ends with a code unit that is
    not white space. *)
Lemma trim_shape (s : jsstring) :
  trim s = [] \/
  (exists c r, trim s = c :: r /\ is_ws c = false) /\ ends_visible (trim s) = true.
Proof.
  unfold trim, trimEnd.
  destruct (trimStart_suffix (rev (trimStart s))) as [pre Hpre].
  destruct (trimStart (rev (trimStart s))) as [|d w] eqn:Hw; [left; reflexivity |].
  right. split.
  - apply (f_equal (@rev cu)) in Hpre. rewrite rev_involutive, rev_app_distr in Hpre.
    destruct (rev (d :: w)) as [|c r] eqn:Hr.
    + apply (f_equal (@List.length cu)) in Hr. rewrite length_rev in Hr. discriminate.
    + exists c, r. split; [reflexivity |].
      cbn [app] in Hpre. eapply trimStart_head; exact Hpre.
  - cbn [rev]. rewrite ends_visible_app. apply negb_true_iff.
    eapply trimStart_head; exact Hw.
Qed.

Lemma visible_trimStart (s : jsstring) : visible (trimStart s) = visible s.
Proof.
  induction s as [|c s IH]; [reflexivity |].
  cbn [trimStart]. destruct (is_ws c) eqn:Hc; [| reflexivity].
  unfold visible in *. cbn [filter]. rewrite Hc. exact IH.
Qed.

Lemma visible_trim (s : jsstring) : visible (trim s) = visible s.
Proof.
  unfold trim, trimEnd. unfold visible at 1. rewrite filter_rev.
  fold (visible (trimStart (rev (trimStart s)))). rewrite visible_trimStart.
  unfold visible at 1. rewrite filter_rev, rev_involutive.
  apply visible_trimStart.
Qed.

(** ** What squeezing leaves *)

Lemma visible_squeeze (b : bool) (s : jsstring) : visible (squeeze b s) = visible s.
Proof.
  revert b; induction s as [|c s IH]; intros b; [reflexivity |].
  unfold visible in *. cbn [squeeze filter]. destruct (is_ws c) eqn:Hc; cbn [negb].
  - destruct b; [apply IH |]. cbn [filter]. change (is_ws 32%N) with true.
    cbn [negb]. apply IH.
  - cbn [filter]. rewrite Hc. cbn [negb]. f_equal. apply IH.
Qed.

Lemma squeeze_tidy (s : jsstring) (b : bool) :
  ends_visible s = true -> tidy b (squeeze b s) = true.
Proof.
  revert b; induction s as [|c s IH]; intros b Hs; [discriminate |].
  assert (Hrest : s = [] /\ is_ws c = false \/ ends_visible s = true).
  { cbn [ends_visible] in Hs. destruct s; [left | right]; auto.
    split; [reflexivity | apply negb_true_iff, Hs]. }
  cbn [squeeze]. destruct (is_ws c) eqn:Hc.
  - destruct Hrest as [[_ Hc'] | Hrest]; [congruence |].
    destruct b; [apply IH, Hrest |].
    cbn [tidy]. change (is_ws 32%N) with true. cbn. apply IH, Hrest.
  - cbn [tidy]. rewrite Hc.
    destruct Hrest as [[-> _] | Hrest]; [reflexivity | apply IH, Hrest].
Qed.

Lemma tidy_squeeze (t : jsstring) (b : bool) : tidy b t = true -> squeeze b t = t.
Proof.
  revert b; induction t as [|c t IH]; intros b Ht; [reflexivity |].
  cbn [tidy squeeze] in *. destruct (is_ws c).
  - apply andb_true_iff in Ht as [Ht Ht']. apply andb_true_iff in Ht as [Hc Hb].
    apply N.eqb_eq in Hc. apply negb_true_iff in Hb. subst b c.
    f_equal. apply IH, Ht'.
  - f_equal. apply IH, Ht.
Qed.

Lemma tidy_spaces (t : jsstring) (b : bool) (c : cu) :
  tidy b t = true -> In c t -> is_ws c = true -> c = 32%N.
Proof.
  revert b; induction t as [|a t IH]; intros b Ht Hin Hc; [contradiction |].
  cbn [tidy] in Ht. destruct (is_ws a) eqn:Ha.
  - apply andb_true_iff in Ht as [Ht Ht']. apply andb_true_iff in Ht as [Ha32 _].
    apply N.eqb_eq in Ha32. destruct Hin as [<- | Hin]; [exact Ha32 |].
    eapply IH; eassumption.
  - destruct Hin as [<- | Hin]; [congruence | eapply IH; eassumption].
Qed.

Lemma tidy_no_pair (p q : jsstring) (b : bool) (c d : cu) :
  tidy b (p ++ c :: d :: q) = true -> is_ws c = true -> is_ws d = false.
Proof.
  revert b; induction p as [|a p IH]; intros b Ht Hc.
  - cbn [app tidy] in Ht. rewrite Hc in Ht.
    apply andb_true_iff in Ht as [_ Ht]. destruct (is_ws d); [| reflexivity].
    rewrite andb_false_r in Ht. discriminate.
  - cbn [app tidy] in Ht. destruct (is_ws a).
    + apply andb_true_iff in Ht as [_ Ht]. eapply IH; eassumption.
    + eapply IH; eassumption.
Qed.

Lemma tidy_ends_visible (t : jsstring) (b : bool) :
  tidy b t = true -> t <> [] -> ends_visible t = true.
Proof.
  revert b; induction t as [|a t IH]; intros b Ht Hne; [contradiction |].
  cbn [tidy] in Ht. cbn [ends_visible]. destruct t as [|a' t'].
  - destruct (is_ws a); [| reflexivity].
    cbn [tidy] in Ht. rewrite andb_false_r in Ht. discriminate.
  - destruct (is_ws a).
    + apply andb_true_iff in Ht as [_ Ht]. eapply IH; [exact Ht | discriminate].
    + eapply IH; [exact Ht | discriminate].
Qed.

(** The normalised chunk, when not empty, starts with a code unit that is
    not white space and is tidy from there on. *)
Lemma normalize_shape (chunk : jsstring) :
  normalize chunk = [] \/
  exists c r, normalize chunk = c :: r /\ is_ws c = false /\ tidy false r = true.
Proof.
  rewrite normalize_squeeze.
  destruct (trim_shape chunk) as [-> | [(c & r & Hcr & Hc) Hend]]; [left; reflexivity |].
  right. pose proof (@squeeze_tidy _ false Hend) as Ht.
  rewrite Hcr in *. cbn [squeeze] in *. rewrite Hc in *.
  exists c, (squeeze false r). cbn [tidy] in Ht. rewrite Hc in Ht. auto.
Qed.

Lemma normalize_tidy (chunk : jsstring) :
  trim (normalize chunk) = normalize chunk /\ tidy false (normalize chunk) = true.
Proof.
  destruct (normalize_shape chunk) as [-> | (c & r & -> & Hc & Hr)];
    [split; reflexivity |].
  assert (Ht : tidy false (c :: r) = true) by (cbn [tidy]; rewrite Hc; exact Hr).
  split; [| exact Ht].
  unfold trim. rewrite trimStart_fixed by exact Hc.
  apply trimEnd_fixed. eapply tidy_ends_visible; [exact Ht | discriminate].
Qed.

Lemma normalize_not_empty (chunk : jsstring) :
  long_enough chunk = true -> normalize chunk <> [].
Proof.
  unfold long_enough. intros Hlen. apply Nat.ltb_lt in Hlen.
  rewrite normalize_squeeze.
  destruct (trim_shape chunk) as [He | [(c & r & Hcr & Hc) _]].
  - rewrite He in Hlen. simpl in Hlen. lia.
  - rewrite Hcr. cbn [squeeze]. rewrite Hc. discriminate.
Qed.

(** X8: every line [parseQuizText] returns is the tag of its role
    followed by a non-empty text on one line: the text has no white space
    at either end, and its only white space is single spaces (no newline,
    no tab, no two spaces in a row). *)
Theorem lines_are_tidy (text : jsstring) (w : console) (line : jsstring)
    (H : In line (fst (parseQuizText text w))) :
  exists r t,
    line = tag r ++ t /\ role_of t = Some r /\
    t <> [] /\ trim t = t /\
    (forall c, In c t -> is_ws c = true -> c = 32%N) /\
    (forall p c d q, t = p ++ c :: d :: q -> is_ws c = true -> is_ws d = false).
Proof.
  rewrite parseQuizText_lines, parsed_lines_chunks in H.
  apply in_flat_map in H as (chunk & Hin & Hem).
  unfold Chunks.emitted in Hem.
  destruct (role_of (normalize chunk)) as [r|] eqn:Hr; [| contradiction].
  destruct Hem as [<- | []].
  exists r, (normalize chunk). destruct (normalize_tidy chunk) as [Htrim Htidy].
  repeat split; try assumption.
  - apply normalize_not_empty. unfold chunks_of in Hin.
    apply filter_In in Hin. apply Hin.
  - intros c Hc Hws. eapply tidy_spaces; eassumption.
  - intros p c d q Ht Hws. rewrite Ht in Htidy. eapply tidy_no_pair; eassumption.
Qed.

Lemma lines_are_tidy_witness :
  In (utf16 "🔘 • (a) three") (fst (parseQuizText Scenario.option_page [])) /\
  exists r t, utf16 "🔘 • (a) three" = tag r ++ t /\ role_of t = Some r /\ t <> [].
Proof.
  split; [vm_compute; left; reflexivity |].
  destruct (@lines_are_tidy Scenario.option_page [] (utf16 "🔘 • (a) three"))
    as (r & t & Hl & Hr & Hne & _).
  - vm_compute; left; reflexivity.
  - exists r, t. repeat split; assumption.
Defined.

(** X9: normalising a chunk twice is normalising it once, and
    normalising keeps every code unit that is not white space, in
    order: only white space is removed or replaced. *)
Theorem normalize_idempotent (chunk : jsstring) :
  normalize (normalize chunk) = normalize chunk /\
  visible (normalize chunk) = visible chunk.
Proof.
  destruct (normalize_tidy chunk) as [Htrim Htidy]. split.
  - rewrite (normalize_squeeze (normalize chunk)), Htrim.
    apply tidy_squeeze, Htidy.
  - rewrite normalize_squeeze, visible_squeeze. apply visible_trim.
Qed.

End Normalisation.

(* ================================================================== *)
(** * The classifier works line by line *)
(* ================================================================== *)

Section LineByLine.
Import Classifier Chunks.

(** X10: the lines of a text cut at a newline are the lines of the part
    before followed by the lines of the part after, and so are the
    fragments; a blank line between the two changes nothing. *)
Theorem parseQuizText_line_by_line (a b : jsstring) (w : console) :
  fst (parseQuizText (a ++ 10%N :: b) w)
  = fst (parseQuizText a w) ++ fst (parseQuizText b w) /\
  classify (a ++ 10%N :: b) = classify a ++ classify b /\
  fst (parseQuizText (a ++ 10%N :: 10%N :: b) w)
  = fst (parseQuizText (a ++ 10%N :: b) w).
Proof.
  rewrite !parseQuizText_lines. unfold classify.
  rewrite !parsed_lines_app, fragments_of_lines_app.
  repeat split.
  change (10%N :: b) with ([] ++ 10%N :: b). rewrite parsed_lines_app. reflexivity.
Qed.

End LineByLine.

(* ================================================================== *)
(** * Patterns anchored at the start *)
(* ================================================================== *)

Section AnchoredPatterns.

Lemma match_at_bol (re : RegExp) (r : regex) (i : nat) (s : jsstring) :
  pattern re = Seq Bol r -> match_at re (S i) s = None.
Proof.
  intros Hp. unfold match_at. rewrite Hp. cbn [m rest].
  replace (Nat.eqb (List.length s) (S i + List.length s)) with false;
    [reflexivity |].
  symmetry. apply Nat.eqb_neq. lia.
Qed.

Lemma exec_from_bol (re : RegExp) (r : regex) (i : nat) (s : jsstring) :
  pattern re = Seq Bol r -> exec_from re (S i) s = None.
Proof.
  intros Hp. revert i; induction s as [|c s IH]; intros i; cbn [exec_from];
    rewrite (@match_at_bol _ _ _ _ Hp); [reflexivity | apply IH].
Qed.

(** A pattern that starts with [^] is tried at index 0 only. *)
Lemma exec_bol (re : RegExp) (r : regex) (s : jsstring) :
  pattern re = Seq Bol r -> exec_from re 0 s = match_at re 0 s.
Proof.
  intros Hp. destruct s as [|c s]; cbn [exec_from].
  - destruct (match_at re 0 []); reflexivity.
  - rewrite (@exec_from_bol _ _ _ _ Hp).
    destruct (match_at re 0 (c :: s)); reflexivity.
Qed.

Lemma match_at_bol0 (re : RegExp) (r : regex) (s : jsstring) :
  pattern re = Seq Bol r ->
  match_at re 0 s =
  match m (ignoreCase re) (List.length s) r {| rest := s; caps := [] |} Some with
  | Some y => Some {| index := 0;
                      whole := firstn (List.length s - List.length (rest y)) s;
                      groups := caps y; after := rest y |}
  | None => None
  end.
Proof.
  intros Hp. unfold match_at. rewrite Hp. cbn [m rest Nat.add].
  rewrite Nat.eqb_refl. reflexivity.
Qed.

Variables (ci : bool) (n : nat).

Lemma ends_bol (x y : mstate) : ends ci n Bol x y -> y = x.
Proof. inversion 1; reflexivity. Qed.

(** A repeated character class reads a run of code units of the class. *)
Lemma ends_star_cls (g : bool) (l : list atom) (x y : mstate) :
  ends ci n (Star g (Cls l)) x y ->
  exists run, rest x = run ++ rest y /\
              Forall (fun c => existsb (fun a => atom_match ci a c) l = true) run.
Proof.
  remember (Star g (Cls l)) as r eqn:Hr. intros H.
  induction H as [ | | | | | | | g' r' x | g' r' x y z H1 _ Hlt H2 IH2 | | | | ];
    try discriminate.
  - exists []. split; [reflexivity | constructor].
  - inversion Hr; subst g' r'. destruct (IH2 eq_refl) as (run & Hrun & Hall).
    apply ends_cls in H1 as (c & s & Hx & Hc & ->). cbn [goto rest] in Hrun.
    exists (c :: run). split; [rewrite Hx, Hrun; reflexivity |].
    constructor; assumption.
Qed.

End AnchoredPatterns.

Section QuestionNumber.
Import Classifier Chunks Spaces.

(** X11: a Question fragment keeps its number: its text is one or more
    decimal digits, then "." or ")", then exactly one space, then the
    rest, which is not empty and starts with a code unit that is not
    white space. *)
Theorem question_keeps_number (text t : jsstring)
    (H : In (Question, t) (classify text)) :
  exists digits c r rest_,
    t = digits ++ c :: 32%N :: r :: rest_ /\
    digits <> [] /\
    Forall (fun d => (48 <= d)%N /\ (d <= 57)%N) digits /\
    (c = 46%N \/ c = 41%N) /\
    is_ws r = false.
Proof.
  rewrite classify_chunks in H. apply in_flat_map in H as (chunk & _ & Hem).
  unfold emitted_fragment in Hem.
  destruct (role_of (normalize chunk)) as [r|] eqn:Hr; [| contradiction].
  destruct Hem as [Hem | []]. inversion Hem; subst r t; clear Hem.
  destruct (normalize_tidy chunk) as [_ Htidy].
  set (t := normalize chunk) in *.
  assert (Htest : test re_question t = true).
  { unfold role_of in Hr. destruct (test re_question t); [reflexivity |].
    destruct (test re_option t); [discriminate |].
    destruct (test re_answer t); [discriminate |].
    destruct (test re_explanation t); [discriminate |].
    destruct (_ && _); discriminate. }
  unfold test in Htest.
  rewrite (@exec_bol re_question _ t eq_refl) in Htest.
  destruct (match_at re_question 0 t) as [mr|] eqn:Hm; [| discriminate].
  apply match_at_ends in Hm as (y & Hy & _).
  cbn [re_question ignoreCase pattern seq fold_right Plus] in Hy.
  apply ends_seq in Hy as (x1 & H1 & Hy). apply ends_bol in H1. subst x1.
  apply ends_seq in Hy as (x2 & H2 & Hy).
  apply ends_seq in H2 as (x2' & Hd & Hds).
  apply ends_cls in Hd as (d & s1 & Hx & Hd & ->). cbn [rest] in Hx.
  apply ends_star_cls in Hds as (run & Hrun & Hall). cbn [goto rest] in Hrun.
  apply ends_seq in Hy as (x3 & H3 & Hy).
  apply ends_cls in H3 as (c & s2 & Hx2 & Hc & ->).
  apply ends_seq in Hy as (x4 & H4 & _).
  apply ends_seq in H4 as (x4' & Hw & _).
  apply ends_cls in Hw as (w & s3 & Hx3 & Hw & _). cbn [goto rest] in Hx3.
  assert (Ht : t = (d :: run) ++ c :: w :: s3).
  { rewrite Hx, Hrun, Hx2, Hx3. reflexivity. }
  cbn [existsb atom_match] in Hw. rewrite orb_false_r in Hw.
  assert (Hw32 : w = 32%N).
  { apply (@tidy_spaces t false w Htidy); [| exact Hw].
    rewrite Ht. apply in_or_app. right. right. left. reflexivity. }
  subst w.
  assert (Hrest : exists r s4, s3 = r :: s4 /\ is_ws r = false).
  { assert (Ht' : t = ((d :: run) ++ [c]) ++ 32%N :: s3)
      by (rewrite Ht, <- app_assoc; reflexivity).
    destruct s3 as [|r s4].
    - assert (Hend : ends_visible t = true)
        by (apply (@tidy_ends_visible t false Htidy); rewrite Ht';
            intros He; apply app_eq_nil in He as [_ He]; discriminate He).
      rewrite Ht', ends_visible_app in Hend. discriminate Hend.
    - exists r, s4. split; [reflexivity |].
      rewrite Ht' in Htidy. apply (tidy_no_pair _ _ _ _ _ Htidy). reflexivity. }
  destruct Hrest as (r & s4 & -> & Hvis).
  exists (d :: run), c, r, s4.
  assert (Hdigit : forall e, existsb (fun a => atom_match false a e) [ADigit] = true ->
                             (48 <= e)%N /\ (e <= 57)%N).
  { intros e He. cbn in He. rewrite orb_false_r in He.
    apply andb_true_iff in He as [Hlo Hhi].
    apply N.leb_le in Hlo. apply N.leb_le in Hhi. split; assumption. }
  repeat split.
  - exact Ht.
  - discriminate.
  - constructor; [apply Hdigit, Hd |].
    eapply Forall_impl; [| exact Hall]. intros e He. apply Hdigit, He.
  - change (OneOf ".)") with [AChar 46%N; AChar 41%N] in Hc.
    cbn [existsb atom_match canon andb] in Hc.
    rewrite orb_false_r in Hc. unfold cu_eqb in Hc.
    apply orb_true_iff in Hc as [Hc | Hc]; apply N.eqb_eq in Hc; auto.
  - exact Hvis.
Qed.

Lemma question_keeps_number_witness :
  In (Question, utf16 "12) Which one?") (classify (utf16 "12)  Which one?")) /\
  exists digits c r rest_,
    utf16 "12) Which one?" = digits ++ c :: 32%N :: r :: rest_ /\
    digits <> [] /\ is_ws r = false.
Proof.
  split; [vm_compute; left; reflexivity |].
  destruct (@question_keeps_number (utf16 "12)  Which one?") (utf16 "12) Which one?"))
    as (ds & c & r & s & Ht & Hne & _ & _ & Hr).
  - vm_compute; left; reflexivity.
  - exists ds, c, r, s. repeat split; assumption.
Defined.

End QuestionNumber.

(* ================================================================== *)
(** * The label "Solution" *)
(* ================================================================== *)

Section SolutionLabel.
Import Classifier.

Lemma lit_match_ci (b a tail : jsstring) :
  map (canon true) a = map (canon true) b ->
  lit_match true b (a ++ tail) = Some tail.
Proof.
  revert a; induction b as [|y b IH]; intros [|x a] H; try discriminate;
    [reflexivity |].
  cbn [map] in H. inversion H as [[Hx Ha]]. cbn [app lit_match].
  unfold cu_eqb. rewrite Hx, N.eqb_refl. apply IH, Ha.
Qed.

Lemma m_alt_r (ci : bool) (n : nat) (r1 r2 : regex) (x : mstate)
      (k : mstate -> option mstate) :
  m ci n r2 x k <> None -> m ci n (Alt r1 r2) x k <> None.
Proof. cbn [m]. destruct (m ci n r1 x k); [discriminate | exact (fun H => H)]. Qed.

Lemma m_alt_l (ci : bool) (n : nat) (r1 r2 : regex) (x : mstate)
      (k : mstate -> option mstate) :
  m ci n r1 x k <> None -> m ci n (Alt r1 r2) x k <> None.
Proof. cbn [m]. destruct (m ci n r1 x k); [discriminate | contradiction]. Qed.

Lemma m_lit (ci : bool) (n : nat) (t s : jsstring) (x : mstate)
      (k : mstate -> option mstate) :
  lit_match ci t (rest x) = Some s -> k (goto x s) <> None ->
  m ci n (Lit t) x k <> None.
Proof. intros Hl Hk. cbn [m]. rewrite Hl. exact Hk. Qed.

Lemma m_star_stop (ci : bool) (n : nat) (r : regex) (x : mstate)
      (k : mstate -> option mstate) :
  k x <> None -> m ci n (Star true r) x k <> None.
Proof.
  intros Hk. cbn [m repeat_matcher].
  destruct (m ci n r x _); [discriminate | exact Hk].
Qed.

Lemma canon_S (c : cu) : canon true c = 83%N -> c = 83%N \/ c = 115%N.
Proof.
  unfold canon. cbn [andb].
  destruct (97 <=? c)%N eqn:Hlo; cbn [andb]; [| auto].
  destruct (c <=? 122)%N eqn:Hhi; [| auto].
  apply N.leb_le in Hlo. intros H. right. lia.
Qed.

(** The tail [s?[:]\s*] of the answer pattern accepts an optional s, in
    either case, and a colon. *)
Lemma answer_tail (n : nat) (plural rest_ : jsstring) (cs : list (nat * jsstring)) :
  plural = [] \/ (exists c, plural = [c] /\ canon true c = 83%N) ->
  m true n (seq [Opt (Chr "s"); Cls (OneOf ":"); Star true space])
    {| rest := plural ++ utf16 ":" ++ rest_; caps := cs |} Some <> None.
Proof.
  intros Hp. cbn [seq fold_right].
  change (m true n (Seq ?a ?b) ?x ?k) with (m true n a x (fun y => m true n b y k)).
  assert (Hcolon : forall cs',
    m true n (Seq (Cls (OneOf ":")) (Seq (Star true space) Eps))
      {| rest := utf16 ":" ++ rest_; caps := cs' |} Some <> None).
  { intros cs'.
    change (m true n (Seq ?a ?b) ?x ?k) with (m true n a x (fun y => m true n b y k)).
    change (m true n (Cls (OneOf ":")) ?x ?k) with (k (goto x rest_)).
    change (m true n (Seq ?a ?b) ?x ?k) with (m true n a x (fun y => m true n b y k)).
    apply m_star_stop. discriminate. }
  destruct Hp as [-> | (c & -> & Hc)].
  - apply m_alt_r. apply Hcolon.
  - apply m_alt_l. unfold Chr. eapply m_lit.
    + cbn [rest]. change ([c] ++ utf16 ":" ++ rest_) with ([c] ++ (utf16 ":" ++ rest_)).
      apply lit_match_ci. cbn [map]. rewrite Hc. reflexivity.
    + apply Hcolon.
Qed.

(** X12: a chunk labelled "Solution:" or "Solutions:", in any letter
    case, is an Answer: the answer pattern, tried first, takes it, and
    the alternative "Solution" of the explanation pattern never decides. *)
Theorem solution_is_answer (label plural rest_ : jsstring)
    (Hlabel : map (canon true) label = utf16 "SOLUTION")
    (Hplural : plural = [] \/ (exists c, plural = [c] /\ canon true c = 83%N)) :
  role_of (label ++ plural ++ utf16 ":" ++ rest_) = Some Answer.
Proof.
  destruct label as [|c1 l1]; [discriminate |].
  cbn [map] in Hlabel. inversion Hlabel as [[Hc1 Hl1]].
  set (t := (c1 :: l1) ++ plural ++ utf16 ":" ++ rest_).
  assert (Hq : test re_question t = false).
  { unfold test. rewrite (@exec_bol re_question _ t eq_refl).
    rewrite (@match_at_bol0 re_question _ t eq_refl). subst t.
    destruct (canon_S _ Hc1) as [-> | ->]; vm_compute; reflexivity. }
  assert (Ho : test re_option t = false).
  { unfold test. rewrite (@exec_bol re_option _ t eq_refl).
    rewrite (@match_at_bol0 re_option _ t eq_refl). subst t.
    destruct (canon_S _ Hc1) as [-> | ->]; vm_compute; reflexivity. }
  assert (Ha : test re_answer t = true).
  { unfold test. rewrite (@exec_bol re_answer _ t eq_refl).
    rewrite (@match_at_bol0 re_answer _ t eq_refl).
    assert (Hm : m (ignoreCase re_answer) (List.length t)
                   (seq [Group 1 (alts [Chr "Answer"; Chr "Ans"; Chr "Correct";
                                        Chr "Solution"]);
                         Opt (Chr "s"); Cls (OneOf ":"); Star true space])
                   {| rest := t; caps := [] |} Some <> None).
    { cbn [seq fold_right alts fold_left ignoreCase re_answer].
      change (m true ?n (Seq (Group 1 ?g) ?b) ?x ?k)
        with (m true n g x
                (fun y => m true n b
                            (set_cap 1 (firstn (List.length (rest x)
                                                - List.length (rest y)) (rest x)) y) k)).
      apply m_alt_r. unfold Chr. eapply m_lit.
      - cbn [rest]. subst t. apply lit_match_ci.
        cbn [map]. rewrite Hc1, Hl1. reflexivity.
      - apply (@answer_tail (List.length t) plural rest_ _ Hplural). }
    destruct (m _ _ _ _ Some); [reflexivity | contradiction]. }
  unfold role_of. fold t. rewrite Hq, Ho, Ha. reflexivity.
Qed.

Lemma solution_is_answer_witness :
  map (canon true) (utf16 "solution") = utf16 "SOLUTION" /\
  role_of (utf16 "solution" ++ utf16 "s" ++ utf16 ":" ++ utf16 " see above")
  = Some Answer.
Proof.
  split; [vm_compute; reflexivity |].
  apply (@solution_is_answer (utf16 "solution") (utf16 "s") (utf16 " see above")).
  - vm_compute; reflexivity.
  - right. exists 115%N. split; vm_compute; reflexivity.
Defined.

End SolutionLabel.

(* ================================================================== *)
(** * Properties of the extraction *)
(* ================================================================== *)

Section ExtractionFacts.
Import Classifier Builder Extraction.

Lemma page_body_app (lines : list jsstring) (k : nat) (p : page) :
  page_body lines k p = lines ++ page_lines k p.
Proof.
  unfold page_lines, page_body. destruct (page_text p) as [t|]; [| reflexivity].
  destruct (truthy (trim t)); [reflexivity | rewrite app_nil_r; reflexivity].
Qed.

Lemma pages_loop_app (pages : list page) (k : nat) (lines : list jsstring) :
  pages_loop k pages lines = lines ++ pages_loop k pages [].
Proof.
  revert k lines; induction pages as [|p pages IH]; intros k lines; cbn [pages_loop].
  - rewrite app_nil_r; reflexivity.
  - rewrite IH, (IH _ (page_body [] k p)), page_body_app, (page_body_app [] k p).
    rewrite app_assoc. reflexivity.
Qed.

Lemma pages_loop_split (before after_ : list page) (k : nat) :
  pages_loop k (before ++ after_) []
  = pages_loop k before [] ++ pages_loop (k + List.length before) after_ [].
Proof.
  revert k; induction before as [|p before IH]; intros k; cbn [app pages_loop List.length].
  - rewrite Nat.add_0_r. reflexivity.
  - rewrite pages_loop_app, (pages_loop_app before (S k) (page_body [] k p)), IH.
    rewrite Nat.add_succ_r, app_assoc. reflexivity.
Qed.

(** The lines of readable pages do not depend on where the pages are. *)
Lemma pages_loop_readable (pages : list page) (k k' : nat) :
  Forall readable pages -> pages_loop k pages [] = pages_loop k' pages [].
Proof.
  intros H; revert k k'; induction H as [|p pages Hp _ IH]; intros k k';
    [reflexivity |].
  cbn [pages_loop]. rewrite pages_loop_app, (pages_loop_app pages (S k') _).
  rewrite (IH (S k) (S k')). f_equal.
  unfold page_body. unfold readable in Hp.
  destruct (page_text p); [reflexivity | contradiction].
Qed.

(** X13: a page that cannot be read costs one line, which names it by
    its number counted from 1; the lines of the pages before it are all
    there in front, and the lines of the pages after it follow, the same
    as they would be without it when those pages can be read. *)
Theorem extraction_isolates_failure (before after_ : list page) (p : page)
    (st : loading) (H : page_text p = None) :
  exists rest_lines,
    textLines (extractTextFromPDF (Some (before ++ p :: after_)) st)
    = textLines (extractTextFromPDF (Some before) st)
      ++ page_error (List.length before) :: rest_lines /\
    (Forall readable after_ ->
     rest_lines = textLines (extractTextFromPDF (Some after_) st)).
Proof.
  exists (pages_loop (S (List.length before)) after_ []).
  cbn [extractTextFromPDF textLines]. split.
  - rewrite pages_loop_split. cbn [pages_loop Nat.add]. f_equal.
    rewrite pages_loop_app. unfold page_body. rewrite H. reflexivity.
  - intros Hr. apply pages_loop_readable, Hr.
Qed.

Lemma extraction_isolates_failure_witness :
  page_text (Loaded None None) = None /\
  textLines (extractTextFromPDF
               (Some ([Loaded (Some Scenario.option_page) None]
                      ++ Loaded None None
                      :: [Loaded None (Some Scenario.quiz_text)]))
               {| isLoading := true; textLines := [] |})
  = [utf16 "🔘 • (a) three"; utf16 "⚠️ Error processing page 2"]
    ++ Scenario.quiz_lines_current.
Proof.
  split; [reflexivity |].
  destruct (@extraction_isolates_failure
              [Loaded (Some Scenario.option_page) None]
              [Loaded None (Some Scenario.quiz_text)] (Loaded None None)
              {| isLoading := true; textLines := [] |} eq_refl)
    as (rest_lines & Hlines & Hrest).
  rewrite Hlines, Hrest.
  - vm_compute; reflexivity.
  - constructor; [discriminate | constructor].
Defined.

Lemma pages_loop_flat_map (pages : list page) (k : nat) :
  pages_loop k pages []
  = flat_map (fun kp => page_lines (fst kp) (snd kp))
             (combine (List.seq k (List.length pages)) pages).
Proof.
  revert k; induction pages as [|p pages IH]; intros k; [reflexivity |].
  cbn [pages_loop List.length List.seq combine flat_map fst snd].
  rewrite pages_loop_app, page_body_app, IH. reflexivity.
Qed.

(** X14: the lines of a document are the lines of its pages, page after
    page: a readable page whose text is not blank gives the lines
    [parseQuizText] returns for its text, a blank page gives none, a page
    that cannot be read gives its error line; and the loading flag is
    cleared whether the document opened or not. *)
Theorem textLines_page_by_page (pages : list page) (st : loading) :
  textLines (extractTextFromPDF (Some pages) st)
  = flat_map (fun kp => page_lines (fst kp) (snd kp))
             (combine (List.seq 0 (List.length pages)) pages) /\
  (forall k p,
      page_lines k p =
      match page_text p with
      | Some pageText => if truthy (trim pageText)
                         then fst (parseQuizText pageText []) else []
      | None => [page_error k]
      end) /\
  (forall document,
      isLoading (extractTextFromPDF document st) = false).
Proof.
  split; [apply pages_loop_flat_map |]. split.
  - intros k p. unfold page_lines, page_body.
    destruct (page_text p) as [t|]; [| reflexivity].
    destruct (truthy (trim t)); reflexivity.
  - intros [pages' |]; reflexivity.
Qed.

Lemma trim_cons_keeps (c : cu) (s : jsstring) :
  is_ws c = false -> trim (c :: s) <> [].
Proof. intros Hc. apply trim_keeps with (c := c); [left; reflexivity | exact Hc]. Qed.

Lemma page_lines_not_blank (k : nat) (p : page) (line : jsstring) :
  In line (page_lines k p) -> trim line <> [].
Proof.
  unfold page_lines, page_body. destruct (page_text p) as [t|].
  - destruct (truthy (trim t)); [| contradiction].
    cbn [app]. apply parsed_lines_not_blank.
  - intros [<- | []]. unfold page_error.
    assert (Hp : utf16 "⚠️ Error processing page "
                 = 9888%N :: tl (utf16 "⚠️ Error processing page "))
      by (vm_compute; reflexivity).
    rewrite Hp. cbn [app]. apply trim_cons_keeps. vm_compute; reflexivity.
Qed.

Lemma textLines_not_blank (document : option (list page)) (st : loading)
      (line : jsstring) :
  In line (textLines (extractTextFromPDF document st)) -> trim line <> [].
Proof.
  destruct document as [pages |].
  - cbn [extractTextFromPDF textLines]. rewrite pages_loop_flat_map. intros H.
    apply in_flat_map in H as ([k p] & _ & H). eapply page_lines_not_blank, H.
  - intros [<- | []].
    assert (Hp : load_error = 10060%N :: tl load_error)
      by (vm_compute; reflexivity).
    rewrite Hp. apply trim_cons_keeps. vm_compute; reflexivity.
Qed.

Lemma run_stem_not_blank (l : list action) (s : state) :
  (forall a text, In a l -> In text (dropped_text a) -> trim text <> []) ->
  questionText (currentQuestion s) = [] \/
  trim (questionText (currentQuestion s)) <> [] ->
  questionText (currentQuestion (run s l)) = [] \/
  trim (questionText (currentQuestion (run s l))) <> [].
Proof.
  revert s; induction l as [|a l IH]; intros s Hl Hs; [exact Hs |].
  cbn [run fold_left]. apply IH; [intros a' t Ha'; apply Hl; right; exact Ha' |].
  destruct a as [text | lt text | lt | | ]; try exact Hs.
  - right. cbn. apply (Hl (DropQuestion text) text); left; reflexivity.
  - change (snd (fire addQuestion s)) with (step s ClickAdd).
    rewrite step_addQuestion. destruct (canCommit (currentQuestion s));
      [left; reflexivity | exact Hs].
Qed.

(** X15: in the application, where the texts dropped on the builder are
    lines of [textLines], the draft can be committed iff its question
    text and its four options are all non-empty once trimmed: no line of
    a document is blank, so the untrimmed test of the question text and
    the trimmed one agree. *)
Theorem canCommit_in_app (document : option (list page)) (st : loading)
    (l : list action)
    (H : forall a text, In a l -> In text (dropped_text a) ->
                        In text (textLines (extractTextFromPDF document st))) :
  let s := run initial l in
  canCommit (currentQuestion s) = true <->
  trim (questionText (currentQuestion s)) <> [] /\
  (forall lt : letter,
      trim (nth (index_of lt) (option_with_images_ (currentQuestion s)) []) <> []).
Proof.
  cbv zeta.
  assert (Hstem : questionText (currentQuestion (run initial l)) = [] \/
                  trim (questionText (currentQuestion (run initial l))) <> []).
  { apply run_stem_not_blank; [| left; reflexivity].
    intros a text Ha Ht. eapply textLines_not_blank, H; eassumption. }
  rewrite (canCommit_trimmed_unless_blank _ Hstem).
  destruct (reachable_well_formed (reachable_run l)) as [Hq _].
  destruct (four_entries _ Hq) as (a & b & c & d & ->).
  split; intros [Hs Ho]; split; auto.
  - intros lt; apply Ho; destruct lt; simpl; auto.
  - intros opt [<- | [<- | [<- | [<- | []]]]].
    + exact (Ho A). + exact (Ho B). + exact (Ho C). + exact (Ho D).
Qed.

Lemma canCommit_in_app_witness :
  (forall a text,
      In a [DropQuestion (utf16 "🔘 • (a) three")] -> In text (dropped_text a) ->
      In text (textLines (extractTextFromPDF
                            (Some [Loaded (Some Scenario.option_page) None])
                            {| isLoading := true; textLines := [] |}))) /\
  (canCommit (currentQuestion (run initial [DropQuestion (utf16 "🔘 • (a) three")]))
   = true <->
   trim (questionText
           (currentQuestion (run initial [DropQuestion (utf16 "🔘 • (a) three")])))
   <> [] /\
   (forall lt : letter,
       trim (nth (index_of lt)
                 (option_with_images_
                    (currentQuestion
                       (run initial [DropQuestion (utf16 "🔘 • (a) three")]))) [])
       <> [])).
Proof.
  assert (Hdrops : forall a text,
      In a [DropQuestion (utf16 "🔘 • (a) three")] -> In text (dropped_text a) ->
      In text (textLines (extractTextFromPDF
                            (Some [Loaded (Some Scenario.option_page) None])
                            {| isLoading := true; textLines := [] |}))).
  { intros a text [<- | []] [<- | []]. vm_compute. left; reflexivity. }
  split; [exact Hdrops |].
  exact (@canCommit_in_app (Some [Loaded (Some Scenario.option_page) None])
           {| isLoading := true; textLines := [] |}
           [DropQuestion (utf16 "🔘 • (a) three")] Hdrops).
Defined.

End ExtractionFacts.

(* ================================================================== *)
(** * Properties of the page controls *)
(* ================================================================== *)

Section PagerFacts.
Import Pager.
Local Open Scope Z_scope.

Lemma goToPage_in_range (pageNum : Z) (st : pager) :
  in_range st -> in_range (goToPage pageNum st) /\
                 numPages (goToPage pageNum st) = numPages st.
Proof.
  unfold in_range, goToPage. intros Hst.
  destruct ((1 <=? pageNum) && (pageNum <=? numPages st)) eqn:Hg; cbn; [| auto].
  apply andb_true_iff in Hg as [H1 H2]. apply Z.leb_le in H1. apply Z.leb_le in H2.
  auto.
Qed.

(** X16: in a document of one page or more, whatever pages [goToPage] is
    asked for, in range or not, the page on display stays between 1 and
    the number of pages; a page in range is gone to, any other request is
    ignored. *)
Theorem page_stays_in_range (pages : Z) (requests : list Z) (H : 1 <= pages) :
  let st := fold_left (fun st pageNum => goToPage pageNum st) requests (opened pages) in
  1 <= currentPage st <= pages /\
  numPages st = pages /\
  forall pageNum,
    (1 <= pageNum <= pages -> currentPage (goToPage pageNum st) = pageNum) /\
    (pageNum < 1 \/ pages < pageNum -> goToPage pageNum st = st).
Proof.
  cbv zeta.
  assert (Hinv : forall st, in_range st /\ numPages st = pages ->
           in_range (fold_left (fun st pageNum => goToPage pageNum st) requests st) /\
           numPages (fold_left (fun st pageNum => goToPage pageNum st) requests st)
           = pages).
  { induction requests as [|r requests IH]; intros st [Hr Hn]; [auto |].
    cbn [fold_left]. apply IH.
    destruct (goToPage_in_range r Hr) as [Hr' Hn']. split; congruence. }
  destruct (Hinv (opened pages)) as [Hr Hn].
  { split; [unfold in_range; cbn; lia | reflexivity]. }
  set (st := fold_left _ requests (opened pages)) in *.
  unfold in_range in Hr. rewrite Hn in Hr. repeat split; try lia.
  - intros [H1 H2]. unfold goToPage. rewrite Hn.
    apply Z.leb_le in H1. apply Z.leb_le in H2. rewrite H1, H2. reflexivity.
  - intros Hout. unfold goToPage. rewrite Hn.
    destruct (1 <=? pageNum) eqn:H1; [| reflexivity].
    destruct (pageNum <=? pages) eqn:H2; [| reflexivity].
    apply Z.leb_le in H1. apply Z.leb_le in H2. lia.
Qed.

Lemma page_stays_in_range_witness :
  1 <= 3 /\
  currentPage (fold_left (fun st pageNum => goToPage pageNum st)
                         [2; 7; 0; 3; 4] (opened 3)) = 3.
Proof.
  split; [lia |].
  destruct (@page_stays_in_range 3 [2; 7; 0; 3; 4]) as (Hr & _); [lia |].
  vm_compute. reflexivity.
Defined.

(** X17: the buttons and the guard of [goToPage] agree: with the page on
    display in range, a button is disabled exactly when [goToPage] would
    ignore its request, an enabled button moves by one page, and "Next"
    followed by "Previous" comes back to the page. *)
Theorem buttons_move_by_one (st : pager) (H : in_range st) :
  (previous_disabled st = true <-> goToPage (currentPage st - 1) st = st) /\
  (next_disabled st = true <-> goToPage (currentPage st + 1) st = st) /\
  (previous_disabled st = false ->
   currentPage (press st Previous) = currentPage st - 1) /\
  (next_disabled st = false ->
   currentPage (press st Next) = currentPage st + 1 /\
   press (press st Next) Previous = st).
Proof.
  destruct st as [n c]. unfold in_range in H. cbn [currentPage numPages] in H.
  unfold previous_disabled, next_disabled, press, goToPage, previous_disabled.
  cbn [currentPage numPages].
  repeat split; intros;
    repeat (match goal with
            | |- context [(?a <=? ?b)%Z] => destruct (Z.leb_spec a b)
            | H0 : context [(?a <=? ?b)%Z] |- _ => destruct (Z.leb_spec a b)
            end;
            unfold next_disabled, previous_disabled in *;
            cbn [andb currentPage numPages] in *);
    try lia; try reflexivity; try discriminate;
    try (f_equal; lia);
    try (match goal with
         | H0 : {| numPages := _; currentPage := _ |} = _ |- _ =>
             inversion H0; lia
         end).
Qed.

Lemma buttons_move_by_one_witness :
  in_range (opened 3) /\ press (press (opened 3) Next) Previous = opened 3.
Proof.
  split; [unfold in_range; cbn; lia |].
  apply (@buttons_move_by_one (opened 3)); [unfold in_range; cbn; lia |].
  vm_compute; reflexivity.
Defined.

End PagerFacts.

(* ================================================================== *)
(** * Properties of the two screens *)
(* ================================================================== *)

Section ScreensFacts.
Import Screens.

Lemma jsstring_eqb_eq (a b : jsstring) : jsstring_eqb a b = true <-> a = b.
Proof.
  revert b; induction a as [|x a IH]; intros [|y b]; simpl;
    try (split; congruence).
  unfold cu_eqb. rewrite andb_true_iff, N.eqb_eq, IH.
  split; [intros [-> ->]; reflexivity | intros H; inversion H; auto].
Qed.

Lemma deliver_pdf (o : outcome) (st : app) :
  (o = Nothing \/ (exists msg, o = Alert msg) \/
   exists f, o = Upload f /\ is_pdf f = true) ->
  deliver o st = st \/
  exists f, deliver o st = {| uploadedFile := Some f; currentScreen := editor |} /\
            is_pdf f = true.
Proof.
  intros [-> | [[msg ->] | (f & -> & Hf)]]; [left | left | right];
    try reflexivity.
  exists f. split; [reflexivity | exact Hf].
Qed.

Lemma handleDrop_pdf (files : list File) :
  handleDrop files = Nothing \/ (exists msg, handleDrop files = Alert msg) \/
  exists f, handleDrop files = Upload f /\ is_pdf f = true.
Proof.
  destruct files as [|f files]; cbn [handleDrop]; [eauto |].
  destruct (is_pdf f) eqn:Hf; eauto.
Qed.

Lemma handleFileSelect_pdf (files : option (list File)) :
  handleFileSelect files = Nothing \/
  (exists msg, handleFileSelect files = Alert msg) \/
  exists f, handleFileSelect files = Upload f /\ is_pdf f = true.
Proof.
  destruct files as [[|f files] |]; cbn [handleFileSelect]; eauto.
  destruct (is_pdf f) eqn:Hf; eauto.
Qed.

(** X18: whatever is dropped, picked or pressed, the editor screen is on
    display only with a file whose type is "application/pdf", and the
    upload screen only with no file: [EditorScreen] never gets a null
    file, nor a file of another type. *)
Theorem editor_has_pdf (events : list event) :
  let st := run initial events in
  (currentScreen st = editor ->
   exists f, uploadedFile st = Some f /\ type f = utf16 "application/pdf") /\
  (currentScreen st = upload -> uploadedFile st = None).
Proof.
  cbv zeta.
  assert (Hinv : forall st,
    (st = {| uploadedFile := None; currentScreen := upload |} \/
     exists f, st = {| uploadedFile := Some f; currentScreen := editor |} /\
               is_pdf f = true) ->
    (run st events = {| uploadedFile := None; currentScreen := upload |} \/
     exists f, run st events = {| uploadedFile := Some f; currentScreen := editor |} /\
               is_pdf f = true)).
  { induction events as [|e events IH]; intros st Hst; [exact Hst |].
    cbn [run fold_left]. apply IH.
    destruct Hst as [-> | (f & -> & Hf)].
    - destruct e as [files | files |]; cbn [step currentScreen]; [| | auto].
      + destruct (@deliver_pdf _ {| uploadedFile := None; currentScreen := upload |}
                    (handleDrop_pdf files)) as [-> | H]; auto.
      + destruct (@deliver_pdf _ {| uploadedFile := None; currentScreen := upload |}
                    (handleFileSelect_pdf files)) as [-> | H]; auto.
    - destruct e as [files | files |]; cbn [step currentScreen]; eauto. }
  destruct (Hinv initial (or_introl eq_refl)) as [-> | (f & -> & Hf)].
  - split; [discriminate | reflexivity].
  - split; [| discriminate]. intros _. exists f. split; [reflexivity |].
    apply jsstring_eqb_eq, Hf.
Qed.

End ScreensFacts.

(* ================================================================== *)
(** * The fragments of the pattern-anchored classifier *)
(* ================================================================== *)

Section AnchoredShapes.
Import Classifier Anchored AnchoredLines.

Lemma trim_trim (s : jsstring) : trim (trim s) = trim s.
Proof.
  destruct (trim_shape s) as [-> | [(c & r & Hcr & Hc) Hend]]; [reflexivity |].
  unfold trim at 1. rewrite Hcr, trimStart_fixed by exact Hc.
  rewrite <- Hcr. apply trimEnd_fixed, Hend.
Qed.

Lemma push_if_shape (s l : jsstring) (lines : list jsstring) :
  Forall line_shape lines -> (trimmed_text (trim s) -> line_shape l) ->
  Forall line_shape (push_if (trim s) l lines).
Proof.
  intros Hlines Hl. unfold push_if.
  destruct (trim s) as [|c t] eqn:Hs; cbn [truthy]; [exact Hlines |].
  apply Forall_app; split; [exact Hlines |].
  constructor; [| constructor]. apply Hl. split; [discriminate |].
  rewrite <- Hs. apply trim_trim.
Qed.

Lemma option_body_shape (ms : list match_result) (st : list jsstring * jsstring) :
  (forall r, In r ms -> exists i s, match_at re_option i s = Some r) ->
  Forall line_shape (fst st) ->
  Forall line_shape (fst (fold_left option_body ms st)).
Proof.
  revert st; induction ms as [|r ms IH]; intros [lines remaining] Hms Hst;
    [exact Hst |].
  cbn [fold_left]. apply IH; [intros r' Hr'; apply Hms; right; exact Hr' |].
  cbn [option_body fst]. apply push_if_shape; [exact Hst |].
  intros Ht. destruct (Hms r (or_introl eq_refl)) as (i & s & Hm).
  apply re_option_letter in Hm as (c & Hlo & Hhi & ->).
  constructor; assumption.
Qed.

Lemma block_body_shape (lines : list jsstring) (block : jsstring) :
  Forall line_shape lines -> Forall line_shape (block_body lines block).
Proof.
  intros Hlines. unfold block_body.
  set (st := match exec re_question (trim block) with
             | Some q => _ | None => _ end).
  assert (Hst : Forall line_shape (fst st)).
  { subst st. destruct (exec re_question (trim block)); cbn [fst]; [| exact Hlines].
    apply push_if_shape; [exact Hlines | intros Ht; constructor; exact Ht]. }
  pose proof (@option_body_shape (matchAll re_option (snd st)) st
                (fun r => @matchAll_match_at re_option (snd st) r) Hst) as Hfold.
  destruct (fold_left option_body (matchAll re_option (snd st)) st)
    as [lines' remaining'].
  cbn [fst] in Hfold.
  destruct (exec re_answer remaining'); [| exact Hfold].
  apply push_if_shape; [exact Hfold | intros Ht; constructor; exact Ht].
Qed.

Lemma anchored_lines_shape (text : jsstring) :
  Forall line_shape (Anchored.parseQuizText text).
Proof.
  unfold Anchored.parseQuizText.
  assert (H : forall blocks lines,
             Forall line_shape lines ->
             Forall line_shape (fold_left block_body blocks lines)).
  { induction blocks as [|b blocks IH]; intros lines Hl; [exact Hl |].
    apply IH, block_body_shape, Hl. }
  apply H. constructor.
Qed.

(** X19: the pattern-anchored classifier gives questions, options and
    answers only, never an explanation or a plain text; the text of an
    answer is "Answer: " followed by the answer, an option is its letter
    in parentheses and its text; and the question, the option text and
    the answer each have something in them and no white space at either
    end. *)
Theorem anchored_fragments (text : jsstring) (f : fragment)
    (H : In f (Anchored.classify text)) :
  (exists t, f = (Question, t) /\ trimmed_text t) \/
  (exists c t, f = (Option_, utf16 "(" ++ [c] ++ utf16 ") " ++ t) /\
               (97 <= c)%N /\ (c <= 100)%N /\ trimmed_text t) \/
  (exists t, f = (Answer, utf16 "Answer: " ++ t) /\ trimmed_text t).
Proof.
  apply fragments_of_lines_In in H as (line & Hin & Hf).
  pose proof (anchored_lines_shape text) as Hall.
  rewrite Forall_forall in Hall. specialize (Hall line Hin).
  destruct Hall as [t Ht | c t Hlo Hhi Ht | t Ht].
  - change (fragment_of (question_line t)) with (Some (Question, t)) in Hf.
    inversion Hf; subst f. left. exists t. split; [reflexivity | exact Ht].
  - change (fragment_of (option_line [c] t))
      with (Some (Option_, utf16 "(" ++ [c] ++ utf16 ") " ++ t)) in Hf.
    inversion Hf; subst f. right; left. exists c, t.
    repeat split; try assumption; apply Ht.
  - change (fragment_of (answer_line t))
      with (Some (Answer, utf16 "Answer: " ++ t)) in Hf.
    inversion Hf; subst f. right; right. exists t. split; [reflexivity | exact Ht].
Qed.

Lemma anchored_fragments_witness :
  In (Answer, utf16 "Answer: b") (Anchored.classify Scenario.quiz_text) /\
  ((exists t, (Answer, utf16 "Answer: b") = (Question, t) /\ trimmed_text t) \/
   (exists c t, (Answer, utf16 "Answer: b")
                = (Option_, utf16 "(" ++ [c] ++ utf16 ") " ++ t) /\
                (97 <= c)%N /\ (c <= 100)%N /\ trimmed_text t) \/
   (exists t, (Answer, utf16 "Answer: b") = (Answer, utf16 "Answer: " ++ t) /\
              trimmed_text t)).
Proof.
  split; [vm_compute; do 5 right; left; reflexivity |].
  apply (@anchored_fragments Scenario.quiz_text).
  vm_compute; do 5 right; left; reflexivity.
Defined.

End AnchoredShapes.

(* ================================================================== *)
(** * Properties of the extraction with pdf.js *)
(* ================================================================== *)

Section PdfJsFacts.
Import PdfJs.

Lemma pages_loop_fails (before after_ : list page) (k : nat)
      (fullText : jsstring) (lines : list jsstring) :
  pages_loop k (before ++ None :: after_) fullText lines = None.
Proof.
  revert k fullText lines; induction before as [|p before IH];
    intros k fullText lines; [reflexivity |].
  destruct p as [items |]; [apply IH | reflexivity].
Qed.

Lemma pages_loop_readable_all (pages : list page) (k : nat)
      (fullText : jsstring) (lines : list jsstring) :
  Forall (fun p => p <> None) pages ->
  exists more,
    pages_loop k pages fullText lines
    = Some (fullText ++ more,
            lines ++ flat_map (fun p => match p with
                                        | Some items =>
                                            Anchored.parseQuizText (join (utf16 " ") items)
                                        | None => []
                                        end) pages) /\
    (pages <> [] -> exists more', more = utf16 "--- Page " ++ more').
Proof.
  intros H; revert k fullText lines; induction H as [|p pages Hp _ IH];
    intros k fullText lines.
  - exists []. cbn [pages_loop flat_map]. rewrite !app_nil_r.
    split; [reflexivity | intros Hne; contradiction].
  - destruct p as [items |]; [| contradiction]. cbn [pages_loop flat_map].
    destruct (IH (S k) (fullText ++ page_block k (join (utf16 " ") items))
                 (lines ++ Anchored.parseQuizText (join (utf16 " ") items)))
      as (more & Hloop & _).
    exists (page_block k (join (utf16 " ") items) ++ more).
    rewrite Hloop, <- !app_assoc. split; [reflexivity |].
    intros _. unfold page_block. rewrite <- !app_assoc. eauto.
Qed.

(** X20: with pdf.js the extraction is all or nothing.  When every page
    can be read, the lines are those of the pages, page after page; when
    one page cannot, the lines of the pages read before it are lost with
    it: the lines on screen stay what they were and the text shown is the
    error message. *)
Theorem pdfjs_all_or_nothing (before after_ pages : list page) (st : viewer) :
  (Forall (fun p => p <> None) pages ->
   textLines (extractTextFromPDF (Some pages) st)
   = flat_map (fun p => match p with
                        | Some items => Anchored.parseQuizText (join (utf16 " ") items)
                        | None => []
                        end) pages) /\
  textLines (extractTextFromPDF (Some (before ++ None :: after_)) st) = textLines st /\
  pdfText (extractTextFromPDF (Some (before ++ None :: after_)) st) = extraction_error.
Proof.
  split; [| split].
  - intros H. unfold extractTextFromPDF.
    destruct (pages_loop_readable_all 1 [] [] H) as (more & -> & _). reflexivity.
  - unfold extractTextFromPDF. rewrite pages_loop_fails. reflexivity.
  - unfold extractTextFromPDF. rewrite pages_loop_fails. reflexivity.
Qed.

Lemma pdfjs_all_or_nothing_witness :
  Forall (fun p : page => p <> None)
         [Some [utf16 "1. What is 2+2?"; utf16 "• (a) 3"; utf16 "• (b) 4"]] /\
  textLines (extractTextFromPDF
               (Some [Some [utf16 "1. What is 2+2?"; utf16 "• (a) 3"; utf16 "• (b) 4"]])
               {| pdfText := []; isLoading := true; textLines := [] |})
  = [utf16 "❓ What is 2+2?"; utf16 "🔘 (a) 3"; utf16 "🔘 (b) 4"].
Proof.
  assert (H : Forall (fun p : page => p <> None)
                [Some [utf16 "1. What is 2+2?"; utf16 "• (a) 3"; utf16 "• (b) 4"]])
    by (constructor; [discriminate | constructor]).
  split; [exact H |].
  etransitivity.
  - apply (proj1 (@pdfjs_all_or_nothing [] [] _
                    {| pdfText := []; isLoading := true; textLines := [] |}) H).
  - vm_compute; reflexivity.
Defined.

(** X21: the message "No text found in PDF" is shown only for a document
    without pages: as soon as there is a page, and every page can be
    read, the text shown starts with the heading of page 1, even if no
    page has any text. *)
Theorem pdfjs_no_text_message (pages : list page) (st : viewer)
    (H : Forall (fun p => p <> None) pages) :
  (pages = [] -> pdfText (extractTextFromPDF (Some pages) st) = no_text) /\
  (pages <> [] ->
   pdfText (extractTextFromPDF (Some pages) st) <> no_text /\
   exists more, pdfText (extractTextFromPDF (Some pages) st)
                = utf16 "--- Page 1 ---" ++ 10%N :: more).
Proof.
  split.
  - intros ->. reflexivity.
  - intros Hne. destruct pages as [|p pages]; [contradiction |].
    inversion H as [| p' pages' Hp Hrest]; subst.
    destruct p as [items |]; [| contradiction].
    unfold extractTextFromPDF. cbn [pages_loop].
    destruct (pages_loop_readable_all 2
                ([] ++ page_block 1 (join (utf16 " ") items))
                ([] ++ Anchored.parseQuizText (join (utf16 " ") items)) Hrest)
      as (more & -> & _).
    cbn [pdfText app]. unfold page_block.
    change (utf16 (NilEmpty.string_of_uint (Nat.to_uint 1))) with (utf16 "1").
    change (utf16 "--- Page ") with [45; 45; 45; 32; 80; 97; 103; 101; 32]%N.
    cbn [app truthy]. split; [discriminate |].
    eexists. change (utf16 "--- Page 1 ---")
      with [45; 45; 45; 32; 80; 97; 103; 101; 32; 49; 32; 45; 45; 45]%N.
    cbn [app]. reflexivity.
Qed.

Lemma pdfjs_no_text_message_witness :
  Forall (fun p : page => p <> None) [Some []] /\
  pdfText (extractTextFromPDF (Some [Some []])
             {| pdfText := []; isLoading := true; textLines := [] |})
  <> no_text.
Proof.
  assert (H : Forall (fun p : page => p <> None) [Some []])
    by (constructor; [discriminate | constructor]).
  split; [exact H |].
  apply (proj2 (@pdfjs_no_text_message [Some []]
                  {| pdfText := []; isLoading := true; textLines := [] |} H)).
  discriminate.
Defined.

End PdfJsFacts.

(* ================================================================== *)
(** * Headings in capitals are dropped *)
(* ================================================================== *)

Section HeadingFacts.
Import Classifier Headings.

Lemma header_class (c : cu) :
  existsb (fun a => atom_match false a c) [ARange (ch "A") (ch "Z"); ASpace]
  = capital_or_space c.
Proof.
  cbn [existsb atom_match andb orb]. change (ch "A") with 65%N.
  change (ch "Z") with 90%N. unfold capital_or_space.
  rewrite !orb_false_r. reflexivity.
Qed.

(** One step of [[A-Z\s]]. *)
Lemma m_header (n : nat) (x : mstate) (k : mstate -> option mstate) :
  m false n (Cls [ARange (ch "A") (ch "Z"); ASpace]) x k =
  match rest x with
  | c :: s => if capital_or_space c then k (goto x s) else None
  | [] => None
  end.
Proof.
  cbn [m]. destruct (rest x) as [|c s]; [reflexivity |].
  rewrite header_class. reflexivity.
Qed.

(** [[A-Z\s]*$], greedy, on a text made of capitals and white space: it
    reads the text to its end. *)
Lemma repeat_header (n fuel : nat) (s : jsstring) (cs : list (nat * jsstring)) :
  List.length s < fuel ->
  forallb capital_or_space s = true ->
  repeat_matcher (m false n (Cls [ARange (ch "A") (ch "Z"); ASpace])) true
                 (fun y => m false n (Seq Eol Eps) y Some) fuel
                 {| rest := s; caps := cs |}
  <> None.
Proof.
  revert s; induction fuel as [|fuel IH]; intros s Hlen Hall; [lia |].
  cbn [repeat_matcher].
  destruct s as [|c s].
  - cbn [m rest]. discriminate.
  - cbn [forallb] in Hall. apply andb_true_iff in Hall as [Hc Hall].
    rewrite m_header. cbn [rest]. rewrite Hc. unfold goto; cbn [rest caps].
    replace (List.length s <? List.length (c :: s)) with true
      by (symmetry; apply Nat.ltb_lt; simpl; lia).
    specialize (IH s ltac:(simpl in Hlen; lia) Hall).
    destruct (repeat_matcher _ true _ fuel _); [discriminate | contradiction].
Qed.

Lemma test_header (t : jsstring) :
  t <> [] -> forallb capital_or_space t = true -> test re_header t = true.
Proof.
  intros Hne Hall. unfold test.
  rewrite (@exec_bol re_header _ t eq_refl), (@match_at_bol0 re_header _ t eq_refl).
  cbn [re_header ignoreCase pattern seq fold_right]. unfold Plus.
  destruct t as [|c s]; [contradiction |].
  cbn [forallb] in Hall. apply andb_true_iff in Hall as [Hc Hall].
  change (m false ?n (Seq (Seq ?a ?b) ?r) ?x ?k)
    with (m false n a x (fun y => m false n b y (fun z => m false n r z k))).
  rewrite m_header. cbn [rest]. rewrite Hc. unfold goto; cbn [rest caps].
  change (m false ?n (Star true ?a) ?x ?k)
    with (repeat_matcher (m false n a) true k (S (List.length (rest x))) x).
  cbn [rest].
  pose proof (@repeat_header (List.length (c :: s)) (S (List.length s)) s []
                (Nat.lt_succ_diag_r _) Hall) as Hrep.
  destruct (repeat_matcher _ true _ _ _); [reflexivity | contradiction].
Qed.

(** X22: a chunk made of capital letters A to Z and white space only,
    whatever its length, is never kept as plain text. *)
Theorem capitals_never_plain (t : jsstring)
    (H : forallb capital_or_space t = true) :
  role_of t <> Some Plain.
Proof.
  unfold role_of.
  destruct (test re_question t); [discriminate |].
  destruct (test re_option t); [discriminate |].
  destruct (test re_answer t); [discriminate |].
  destruct (test re_explanation t); [discriminate |].
  destruct (15 <? List.length t) eqn:Hlen; [| discriminate].
  rewrite test_header; [discriminate | | exact H].
  apply Nat.ltb_lt in Hlen. destruct t; [simpl in Hlen; lia | discriminate].
Qed.

Lemma capitals_never_plain_witness :
  forallb capital_or_space (utf16 "CHAPTER ONE REVIEW QUESTIONS") = true /\
  role_of (utf16 "CHAPTER ONE REVIEW QUESTIONS") <> Some Plain.
Proof.
  split; [vm_compute; reflexivity |].
  apply (@capitals_never_plain (utf16 "CHAPTER ONE REVIEW QUESTIONS")).
  vm_compute; reflexivity.
Defined.

End HeadingFacts.

(* ================================================================== *)
(** * The properties above at work *)
(* ================================================================== *)

Section Checks.
Import Builder.

Lemma question_numbers_consecutive_witness :
  fst (fire exportJSON (run initial (Scenario.fill_actions ++ [ClickAdd])))
  = Normal {| filename := utf16 "questions.json";
              finalArray := [Scenario.quiz_record] |} /\
  map questionNumber [Scenario.quiz_record] = List.seq 1 1.
Proof.
  split; [vm_compute; reflexivity |].
  apply (proj2 (proj2 (proj2 (question_numbers_consecutive
                                (Scenario.fill_actions ++ [ClickAdd]))))
           {| filename := utf16 "questions.json";
              finalArray := [Scenario.quiz_record] |}).
  vm_compute; reflexivity.
Defined.

Lemma exported_questions_valid_witness :
  fst (fire exportJSON (run initial Scenario.fill_actions))
  = Normal {| filename := utf16 "questions.json";
              finalArray := [Scenario.quiz_record] |} /\
  Forall (fun q => questionText q <> [] /\
                   forall opt, In opt (option_with_images_ q) -> trim opt <> [])
         [Scenario.quiz_record].
Proof.
  split; [vm_compute; reflexivity |].
  apply (proj2 (exported_questions_valid Scenario.fill_actions)
           {| filename := utf16 "questions.json";
              finalArray := [Scenario.quiz_record] |}).
  vm_compute; reflexivity.
Defined.

Lemma committed_questions_kept_witness :
  nth_error (questionsArray (run initial (Scenario.fill_actions ++ [ClickAdd]))) 0
  = Some Scenario.quiz_record /\
  nth_error (questionsArray
               (run (run initial (Scenario.fill_actions ++ [ClickAdd]))
                    (Scenario.blank_stem_actions ++ [ClickAdd]))) 0
  = Some Scenario.quiz_record.
Proof.
  split; [vm_compute; reflexivity |].
  apply (proj2 (proj2 (committed_questions_kept
                         (run initial (Scenario.fill_actions ++ [ClickAdd]))
                         (Scenario.blank_stem_actions ++ [ClickAdd])))).
  vm_compute; reflexivity.
Defined.

Lemma editor_has_pdf_witness :
  Screens.currentScreen
    (Screens.run Screens.initial
       [Screens.Drop [{| Screens.name := utf16 "notes.txt";
                         Screens.type := utf16 "text/plain" |}];
        Screens.Select (Some [{| Screens.name := utf16 "quiz.pdf";
                                 Screens.type := utf16 "application/pdf" |}])])
  = Screens.editor /\
  exists f,
    Screens.uploadedFile
      (Screens.run Screens.initial
         [Screens.Drop [{| Screens.name := utf16 "notes.txt";
                           Screens.type := utf16 "text/plain" |}];
          Screens.Select (Some [{| Screens.name := utf16 "quiz.pdf";
                                   Screens.type := utf16 "application/pdf" |}])])
    = Some f /\ Screens.type f = utf16 "application/pdf".
Proof.
  split; [vm_compute; reflexivity |].
  apply (proj1 (editor_has_pdf
                  [Screens.Drop [{| Screens.name := utf16 "notes.txt";
                                    Screens.type := utf16 "text/plain" |}];
                   Screens.Select (Some [{| Screens.name := utf16 "quiz.pdf";
                                            Screens.type := utf16 "application/pdf" |}])])).
  vm_compute; reflexivity.
Defined.

End Checks.
